(** * Event registration, attendance and QR check-in: a shallow embedding

    The services of the backend ([EventService], [AttendanceService],
    [QRCodeService]) are embedded as functions over an explicit store that
    stands for the Prisma tables they read and write.  Time is the number of
    milliseconds since the epoch, read once per service call ([new Date()],
    [Date.now()]) and passed in as [now].  A thrown [createError] is an
    [Err], and no service writes to the store before its last throw, so a
    failing call leaves the store as it was. *)

From Stdlib Require Import ZArith String Ascii List Bool Lia DecimalString DecimalZ.
From stdpp Require Import base option list gmap strings.

Open Scope Z_scope.

(** ** Errors *)

(** One constructor per [createError] message of the services. *)
Inductive Error : Type :=
  | EventNotFound            (* 'Event not found', 404 *)
  | EventInactive            (* 'Event is not active' / 'Cannot generate QR code for inactive event', 400 *)
  | RegistrationNotRequired  (* 'Registration is not required for this event', 400 *)
  | EventAlreadyStarted      (* 'Cannot register for / cancel ... already started', 400 *)
  | DeadlinePassed           (* 'Registration deadline has passed', 400 *)
  | AlreadyRegistered        (* 'Already registered for this event', 409 *)
  | CapacityExceeded         (* 'Event is at full capacity', 400 *)
  | RegistrationNotFound     (* 'Registration not found', 404 *)
  | EventNotStarted          (* 'Event has not started yet', 400 *)
  | EventEnded               (* 'Event has already ended', 400 *)
  | UserNotRegistered        (* 'User is not registered for this event', 400 *)
  | RegistrationNotConfirmed (* 'User registration is not confirmed', 400 *)
  | AlreadyCheckedIn         (* 'User already checked in', 409 *)
  | AttendanceNotFound       (* 'Attendance record not found', 404 *)
  | NotCheckedIn             (* 'User has not checked in yet', 400 *)
  | AlreadyCheckedOut        (* 'User already checked out', 409 *)
  | InvalidFormat            (* 'Invalid QR code format' / 'Invalid token format', 400 *)
  | EventMismatch            (* 'Token does not match event', 400 *)
  | TokenNotFound            (* 'QR code / Token not found or inactive', 404 *)
  | TokenExpired             (* 'QR code / Token has expired', 400 *)
  | NoActiveToken            (* 'No active QR code found for this event', 404 *)
  | Forbidden                (* 'You can only update ...' / 'Subadmin cannot ...', 403 *)
  | StoreError.              (* a rejected store operation: unique key, missing row *)

Inductive result (A : Type) : Type :=
  | Ok (a : A)
  | Err (e : Error).
Arguments Ok {A} a.
Arguments Err {A} e.

Definition is_ok {A} (r : result A) : bool :=
  match r with Ok _ => true | Err _ => false end.

(** [if (c) throw e; k] *)
Notation "'throw' e 'when' c ;; k" := (if c then Err e else k)
  (at level 10, e at level 9, c at level 99, k at level 200, only parsing).

(** [await check; k]: a failed check is rethrown. *)
Notation "'check' r ;; k" := (match r with Ok _ => k | Err e => Err e end)
  (at level 10, r at level 99, k at level 200, only parsing).

(** ** The tables *)

Definition Time := Z.

Inductive Role : Type := USER | SUBADMIN | ADMIN.

Inductive Category : Type :=
  PRAYER | LECTURE | COMMUNITY | EDUCATION | CHARITY | SOCIAL.

Record Event : Type := mkEvent {
  title : string;
  description : string;
  startDate : Time;
  endDate : Time;
  location : string;
  maxAttendees : option Z;
  currentAttendees : Z;
  category : Category;
  imageUrl : option string;
  registrationRequired : bool;
  registrationDeadline : option Time;
  isActive : bool;
  createdById : string
}.

(** The body of an update request as [prisma.event.update] receives it:
    the handler passes [req.body] on whole, and the validators test the keys
    of [UpdateEventDto] without removing any other.  So besides the eleven
    keys of the type the body may name the two further columns of the row,
    [currentAttendees] and [createdById]; a number written with
    [{ increment: k }] and the like is the value it leaves.  An absent key
    leaves its column as it is.  A body that names the primary key or a
    relation of the row is outside this model: what it writes depends on the
    schema, which the source does not show. *)
Record UpdateEventDto : Type := mkUpdate {
  u_title : option string;
  u_description : option string;
  u_startDate : option Time;
  u_endDate : option Time;
  u_location : option string;
  u_maxAttendees : option Z;
  u_category : option Category;
  u_imageUrl : option string;
  u_registrationRequired : option bool;
  u_registrationDeadline : option Time;
  u_isActive : option bool;
  u_currentAttendees : option Z;
  u_createdById : option string
}.

(** A row of [eventRegistration]; the key (eventId, userId) is the map key. *)
Record Registration : Type := mkRegistration {
  reg_status : string;
  registrationDate : Time
}.

Inductive AttendanceStatus : Type := REGISTERED | CHECKED_IN | CHECKED_OUT | NO_SHOW.

(** A row of [attendance]; the key (eventId, userId) is the map key. *)
Record Attendance : Type := mkAttendance {
  checkInTime : option Time;
  checkOutTime : option Time;
  att_status : AttendanceStatus;
  notes : option string
}.

(** A row of [qRCode]; its primary key is its position in the table, rows
    are never deleted. *)
Record QRCode : Type := mkQRCode {
  qr_eventId : string;
  qrData : string;
  qr_type : string;
  expiresAt : Time;
  qr_isActive : bool;
  createdAt : Time
}.

Record Store : Type := mkStore {
  users : gmap string Role;
  events : gmap string Event;
  registrations : gmap (string * string) Registration;
  attendances : gmap (string * string) Attendance;
  qrCodes : list QRCode
}.

Definition set_events (f : gmap string Event -> gmap string Event) (s : Store) : Store :=
  mkStore (users s) (f (events s)) (registrations s) (attendances s) (qrCodes s).

Definition set_registrations
    (f : gmap (string * string) Registration -> gmap (string * string) Registration)
    (s : Store) : Store :=
  mkStore (users s) (events s) (f (registrations s)) (attendances s) (qrCodes s).

Definition set_attendances
    (f : gmap (string * string) Attendance -> gmap (string * string) Attendance)
    (s : Store) : Store :=
  mkStore (users s) (events s) (registrations s) (f (attendances s)) (qrCodes s).

Definition set_qrCodes (f : list QRCode -> list QRCode) (s : Store) : Store :=
  mkStore (users s) (events s) (registrations s) (attendances s) (f (qrCodes s)).

(** ** JavaScript truthiness *)

(** [a || b] on nullable strings: [null], [undefined] and [''] are falsy. *)
Definition or_string (a b : option string) : option string :=
  match a with
  | Some EmptyString => b
  | Some _ => a
  | None => b
  end.

(** [event.maxAttendees && event.currentAttendees >= event.maxAttendees]: on a
    nullable number, [null] and [0] are falsy. *)
Definition at_capacity (e : Event) : bool :=
  match maxAttendees e with
  | Some m => negb (m =? 0) && (m <=? currentAttendees e)
  | None => false
  end.

(** [currentAttendees: { increment: k }] *)
Definition bump (k : Z) (e : Event) : Event :=
  mkEvent (title e) (description e) (startDate e) (endDate e) (location e)
          (maxAttendees e) (currentAttendees e + k) (category e) (imageUrl e)
          (registrationRequired e) (registrationDeadline e) (isActive e)
          (createdById e).

(** [prisma.$transaction([eventRegistration.create(CONFIRMED), event.update(increment 1)])]
    on a store where the registration key is free and the event row exists. *)
Definition commit_registration (now : Time) (eventId userId : string) (s : Store) : Store :=
  set_events (alter (bump 1) eventId)
    (set_registrations (insert (eventId, userId) (mkRegistration "CONFIRMED" now)) s).

(** ** Attendance rows *)

(** [checkInTime: new Date(), status: 'CHECKED_IN'] written over an existing
    row, with the notes the caller decided on. *)
Definition mark_checked_in (now : Time) (n : option string) (a : Attendance) : Attendance :=
  mkAttendance (Some now) (checkOutTime a) CHECKED_IN n.

(** [attendance.create] of a checked-in row. *)
Definition new_checked_in (now : Time) (n : option string) : Attendance :=
  mkAttendance (Some now) None CHECKED_IN n.

(** [checkOutTime: new Date(), status: 'CHECKED_OUT', notes: notes || attendance.notes] *)
Definition mark_checked_out (now : Time) (n : option string) (a : Attendance) : Attendance :=
  mkAttendance (checkInTime a) (Some now) CHECKED_OUT (or_string n (notes a)).

(** What [markAttendance] answers: the keys of the attendance row it has
    written, its status, and its check-in time under two names.  The answer
    also carries the [id] of the row and its [createdAt] (as
    [registrationDate]), two store-generated columns this model does not
    keep. *)
Record MarkedAttendance : Type := mkMarked {
  m_eventId : string;
  m_userId : string;
  m_status : AttendanceStatus;
  m_checkInTime : option Time;
  m_attendanceDate : option Time
}.

Definition marked (eventId userId : string) (attendance : Attendance) : MarkedAttendance :=
  mkMarked eventId userId (att_status attendance) (checkInTime attendance)
           (checkInTime attendance).

(** ** EventService *)

Module EventService.

Definition apply_update (d : UpdateEventDto) (e : Event) : Event :=
  mkEvent (default (title e) (u_title d))
          (default (description e) (u_description d))
          (default (startDate e) (u_startDate d))
          (default (endDate e) (u_endDate d))
          (default (location e) (u_location d))
          (match u_maxAttendees d with Some m => Some m | None => maxAttendees e end)
          (default (currentAttendees e) (u_currentAttendees d))
          (default (category e) (u_category d))
          (match u_imageUrl d with Some i => Some i | None => imageUrl e end)
          (default (registrationRequired e) (u_registrationRequired d))
          (match u_registrationDeadline d with
           | Some t => Some t
           | None => registrationDeadline e
           end)
          (default (isActive e) (u_isActive d))
          (default (createdById e) (u_createdById d)).

Definition role_eqb (a b : Role) : bool :=
  match a, b with
  | USER, USER | SUBADMIN, SUBADMIN | ADMIN, ADMIN => true
  | _, _ => false
  end.

Definition updateEvent (id : string) (updateData : UpdateEventDto)
    (currentUserId : string) (currentUserRole : Role) (s : Store)
    : result (Event * Store) :=
  match events s !! id with
  | None => Err EventNotFound
  | Some existingEvent =>
      throw Forbidden when
        role_eqb currentUserRole USER
        && negb (String.eqb (createdById existingEvent) currentUserId) ;;
      throw Forbidden when
        role_eqb currentUserRole SUBADMIN
        && match users s !! createdById existingEvent with
           | Some r => role_eqb r ADMIN
           | None => false (* excluded by the foreign key on createdById *)
           end ;;
      (* the foreign key on [createdById] refuses a creator that is no user *)
      throw StoreError when
        match u_createdById updateData with
        | Some creator => negb (bool_decide (is_Some (users s !! creator)))
        | None => false
        end ;;
      let updatedEvent := apply_update updateData existingEvent in
      Ok (updatedEvent, set_events (insert id updatedEvent) s)
  end.

Definition registerForEvent (now : Time) (eventId userId : string) (s : Store)
    : result Store :=
  match events s !! eventId with
  | None => Err EventNotFound
  | Some event =>
      throw EventInactive when negb (isActive event) ;;
      throw RegistrationNotRequired when negb (registrationRequired event) ;;
      throw EventAlreadyStarted when (startDate event <=? now) ;;
      throw DeadlinePassed when
        match registrationDeadline event with
        | Some d => d <=? now
        | None => false
        end ;;
      match registrations s !! (eventId, userId) with
      | Some _ => Err AlreadyRegistered
      | None =>
          throw CapacityExceeded when at_capacity event ;;
          Ok (commit_registration now eventId userId s)
      end
  end.

Definition cancelRegistration (now : Time) (eventId userId : string) (s : Store)
    : result Store :=
  match registrations s !! (eventId, userId) with
  | None => Err RegistrationNotFound
  | Some _ =>
      match events s !! eventId with
      | None => Err EventNotFound
      | Some event =>
          throw EventAlreadyStarted when (startDate event <=? now) ;;
          Ok (set_events (alter (bump (-1)) eventId)
                (set_registrations (delete (eventId, userId)) s))
      end
  end.

Definition checkIn (now : Time) (eventId userId : string) (notes_ : option string)
    (s : Store) : result Store :=
  match events s !! eventId with
  | None => Err EventNotFound
  | Some event =>
      throw EventInactive when negb (isActive event) ;;
      throw EventNotStarted when (now <? startDate event) ;;
      throw EventEnded when (endDate event <? now) ;;
      throw UserNotRegistered when
        registrationRequired event
        && negb (bool_decide (is_Some (registrations s !! (eventId, userId)))) ;;
      match attendances s !! (eventId, userId) with
      | Some existingAttendance =>
          throw AlreadyCheckedIn when
            bool_decide (is_Some (checkInTime existingAttendance)) ;;
          (* an undefined [notes] leaves the column as it is *)
          let n := match notes_ with
                   | Some v => Some v
                   | None => notes existingAttendance
                   end in
          Ok (set_attendances
                (insert (eventId, userId) (mark_checked_in now n existingAttendance)) s)
      | None =>
          Ok (set_attendances (insert (eventId, userId) (new_checked_in now notes_)) s)
      end
  end.

Definition checkOut (now : Time) (eventId userId : string) (notes_ : option string)
    (s : Store) : result Store :=
  match attendances s !! (eventId, userId) with
  | None => Err AttendanceNotFound
  | Some attendance =>
      throw NotCheckedIn when negb (bool_decide (is_Some (checkInTime attendance))) ;;
      throw AlreadyCheckedOut when bool_decide (is_Some (checkOutTime attendance)) ;;
      Ok (set_attendances
            (insert (eventId, userId) (mark_checked_out now notes_ attendance)) s)
  end.

Definition markAttendance (now : Time) (eventId userId : string) (s : Store)
    : result (MarkedAttendance * Store) :=
  match events s !! eventId with
  | None => Err EventNotFound
  | Some event =>
      throw EventInactive when negb (isActive event) ;;
      throw EventNotStarted when (now <? startDate event) ;;
      throw EventEnded when (endDate event <? now) ;;
      check
        (if registrationRequired event then
           match registrations s !! (eventId, userId) with
           | None => Err UserNotRegistered
           | Some registration =>
               throw RegistrationNotConfirmed when
                 negb (String.eqb (reg_status registration) "CONFIRMED") ;;
               Ok tt
           end
         else Ok tt) ;;
      match attendances s !! (eventId, userId) with
      | Some existingAttendance =>
          throw AlreadyCheckedIn when
            bool_decide (is_Some (checkInTime existingAttendance)) ;;
          let attendance :=
            mark_checked_in now (notes existingAttendance) existingAttendance in
          Ok (marked eventId userId attendance,
              set_attendances (insert (eventId, userId) attendance) s)
      | None =>
          let attendance := new_checked_in now None in
          Ok (marked eventId userId attendance,
              set_attendances (insert (eventId, userId) attendance) s)
      end
  end.

(** [getEventById], as far as its callers below read the result: the event
    row (the included creator, registrations and attendances are left out). *)
Definition getEventById (id : string) (s : Store) : result Event :=
  match events s !! id with
  | Some event => Ok event
  | None => Err EventNotFound
  end.

(** [deleteEvent] up to its last statement: [Ok tt] stands for the call of
    [prisma.event.delete({ where: { id } })].  What that delete does to the
    registrations, attendances and QR codes of the event is the referential
    action of the schema, which the source does not show. *)
Definition deleteEvent (now : Time) (id currentUserId : string) (currentUserRole : Role)
    (s : Store) : result unit :=
  match events s !! id with
  | None => Err EventNotFound
  | Some existingEvent =>
      throw EventAlreadyStarted when (startDate existingEvent <=? now) ;;
      throw Forbidden when
        role_eqb currentUserRole USER
        && negb (String.eqb (createdById existingEvent) currentUserId) ;;
      throw Forbidden when
        role_eqb currentUserRole SUBADMIN
        && match users s !! createdById existingEvent with
           | Some r => role_eqb r ADMIN
           | None => false (* excluded by the foreign key on createdById *)
           end ;;
      Ok tt
  end.

End EventService.

(** ** AttendanceService *)

Module AttendanceService.

(** [checkIn] and [checkOut] also take the role of the caller and never read
    it; [data] is spelled out as its three fields. *)

Definition checkIn (now : Time) (eventId userId : string) (notes_ : option string)
    (s : Store) : result (Attendance * Store) :=
  match events s !! eventId with
  | None => Err EventNotFound
  | Some event =>
      throw EventInactive when negb (isActive event) ;;
      throw EventNotStarted when (now <? startDate event) ;;
      throw EventEnded when (endDate event <? now) ;;
      check
        (if registrationRequired event then
           match registrations s !! (eventId, userId) with
           | None => Err UserNotRegistered
           | Some registration =>
               throw RegistrationNotConfirmed when
                 negb (String.eqb (reg_status registration) "CONFIRMED") ;;
               Ok tt
           end
         else Ok tt) ;;
      match attendances s !! (eventId, userId) with
      | Some existingAttendance =>
          throw AlreadyCheckedIn when
            bool_decide (is_Some (checkInTime existingAttendance)) ;;
          let attendance :=
            mark_checked_in now (or_string notes_ (notes existingAttendance))
                            existingAttendance in
          Ok (attendance, set_attendances (insert (eventId, userId) attendance) s)
      | None =>
          let attendance := new_checked_in now notes_ in
          Ok (attendance, set_attendances (insert (eventId, userId) attendance) s)
      end
  end.

Definition checkOut (now : Time) (eventId userId : string) (notes_ : option string)
    (s : Store) : result (Attendance * Store) :=
  match attendances s !! (eventId, userId) with
  | None => Err AttendanceNotFound
  | Some attendance =>
      throw NotCheckedIn when negb (bool_decide (is_Some (checkInTime attendance))) ;;
      throw AlreadyCheckedOut when bool_decide (is_Some (checkOutTime attendance)) ;;
      let updatedAttendance := mark_checked_out now notes_ attendance in
      Ok (updatedAttendance,
          set_attendances (insert (eventId, userId) updatedAttendance) s)
  end.

End AttendanceService.

(** ** Strings *)

(** [s.split(sep)] for a one-character separator. *)
Fixpoint split (sep : ascii) (s : string) : list string :=
  match s with
  | EmptyString => [EmptyString]
  | String c r =>
      if Ascii.eqb c sep then EmptyString :: split sep r
      else match split sep r with
           | h :: t => String c h :: t
           | [] => [String c EmptyString]
           end
  end.

Definition colon : ascii := ":"%char.

(** [parts[i]], where a missing index reads as [undefined]. *)
Definition part (i : nat) (parts : list string) : option string := parts !! i.

(** The decimal rendering of an integer in a template literal. *)
Definition decimal (n : Z) : string := NilEmpty.string_of_int (Z.to_int n).

(** ** The platform the QR service runs on *)

(** Library functions the service calls: [crypto.createHmac('sha256', key)
    .update(msg).digest('hex')], [encodeURIComponent] and [QRCode.toDataURL]. *)
Record Platform : Type := mkPlatform {
  hmac_sha256_hex : string -> string -> string;
  encodeURIComponent : string -> string;
  toDataURL : string -> string
}.

(** [process.env] *)
Record Env : Type := mkEnv {
  QR_SECRET : option string;
  FRONTEND_URL : option string
}.

(** [`${v}`] of a possibly missing environment variable. *)
Definition render (v : option string) : string := default "undefined"%string v.

Record GeneratedQRCode : Type := mkGenerated {
  g_qrCode : string;
  g_qrData : string;
  g_frontendUrl : string;
  g_expiresAt : Time;
  g_eventId : string
}.

Record TokenInfo : Type := mkTokenInfo {
  t_eventId : string;
  t_eventTitle : string;
  t_startDate : Time;
  t_endDate : Time;
  t_registrationRequired : bool;
  t_registrationDeadline : option Time;
  t_maxAttendees : option Z;
  t_currentAttendees : Z;
  t_isValid : bool;
  t_expiresAt : Time
}.

(** ** QRCodeService *)

Module QRCodeService.

Definition deactivate (q : QRCode) : QRCode :=
  mkQRCode (qr_eventId q) (qrData q) (qr_type q) (expiresAt q) false (createdAt q).

Definition active_for (eventId : string) (q : QRCode) : bool :=
  String.eqb (qr_eventId q) eventId && qr_isActive q.

Definition matches (eventId data : string) (q : QRCode) : bool :=
  String.eqb (qr_eventId q) eventId && String.eqb (qrData q) data && qr_isActive q.

(** [updateMany({ where, data: { isActive: false } })] *)
Definition deactivate_where (p : QRCode -> bool) (l : list QRCode) : list QRCode :=
  map (fun q => if p q then deactivate q else q) l.

(** [findFirst({ where })]: the first matching row and its key. *)
Fixpoint find_index (p : QRCode -> bool) (l : list QRCode) : option (nat * QRCode) :=
  match l with
  | [] => None
  | q :: r =>
      if p q then Some (O, q)
      else match find_index p r with
           | Some (i, q') => Some (S i, q')
           | None => None
           end
  end.

Definition findFirst (p : QRCode -> bool) (l : list QRCode) : option QRCode :=
  snd <$> find_index p l.

Definition secureData (eventId : string) (timestamp : Time) : string :=
  "event-checkin:" +:+ eventId +:+ ":" +:+ decimal timestamp.

(** [process.env.QR_SECRET || 'default-secret'] *)
Definition secret (env : Env) : string :=
  default "default-secret"%string (or_string (QR_SECRET env) None).

Definition signature (P : Platform) (env : Env) (eventId : string) (timestamp : Time)
    : string :=
  hmac_sha256_hex P (secret env) (secureData eventId timestamp).

Definition secureToken (P : Platform) (env : Env) (eventId : string) (timestamp : Time)
    : string :=
  secureData eventId timestamp +:+ ":" +:+ signature P env eventId timestamp.

(** [generateEventQR], run without interruption; its awaits one by one are
    [step_issue] below.  [expirationHours] is a whole number of hours, and
    [now + expirationHours * 60 * 60 * 1000] is the expiry the source
    computes where [exact_expiry] below holds: there the binary64
    arithmetic of the source is exact and its result a valid [Date]. *)
Definition generateEventQR (P : Platform) (env : Env) (now : Time)
    (eventId : string) (expirationHours : Z) (s : Store)
    : result (GeneratedQRCode * Store) :=
  match events s !! eventId with
  | None => Err EventNotFound
  | Some event =>
      throw EventInactive when negb (isActive event) ;;
      let s1 := set_qrCodes (deactivate_where (active_for eventId)) s in
      let expiresAt_ := now + expirationHours * 60 * 60 * 1000 in
      let token := secureToken P env eventId now in
      let frontendUrl :=
        render (FRONTEND_URL env) +:+ "/events/" +:+ eventId +:+ "/checkin?token="
        +:+ encodeURIComponent P token in
      let qrCode := toDataURL P frontendUrl in
      let row := mkQRCode eventId token "secure" expiresAt_ true now in
      Ok (mkGenerated qrCode token frontendUrl expiresAt_ eventId,
          set_qrCodes (fun l => l ++ [row]) s1)
  end.

(** The registration step shared by the two QR check-in paths: with
    registration required and no registration on file, register the user. *)
Definition auto_register (now : Time) (event : Event) (eventId userId : string)
    (s : Store) : result Store :=
  if registrationRequired event then
    match registrations s !! (eventId, userId) with
    | Some _ => Ok s
    | None =>
        throw DeadlinePassed when
          match registrationDeadline event with
          | Some d => d <? now
          | None => false
          end ;;
        throw CapacityExceeded when at_capacity event ;;
        Ok (commit_registration now eventId userId s)
    end
  else Ok s.

(** The attendance write shared by the two QR check-in paths. *)
Definition process_checkin (now : Time) (eventId userId : string)
    (existingAttendance : option Attendance) (s : Store) : Attendance * Store :=
  let attendance :=
    match existingAttendance with
    | Some a => mark_checked_in now (notes a) a
    | None => new_checked_in now None
    end in
  (attendance, set_attendances (insert (eventId, userId) attendance) s).

(** [include: { event: true }] reads the event row the QR row points to. *)
Definition validateAndCheckIn (now : Time) (qrData_ userId : string) (s : Store)
    : result (Attendance * Store) :=
  let parts := split colon qrData_ in
  throw InvalidFormat when
    (length parts <? 2)%nat
    || negb (bool_decide (part 0 parts = Some "event-checkin"%string)) ;;
  let eventId := default EmptyString (part 1 parts) in
  match findFirst (matches eventId qrData_) (qrCodes s) with
  | None => Err TokenNotFound
  | Some qrCodeRecord =>
      throw TokenExpired when (expiresAt qrCodeRecord <? now) ;;
      match events s !! eventId with
      | None => Err StoreError (* excluded by the foreign key on eventId *)
      | Some event =>
          throw EventInactive when negb (isActive event) ;;
          throw EventNotStarted when (now <? startDate event) ;;
          throw EventEnded when (endDate event <? now) ;;
          let existingAttendance := attendances s !! (eventId, userId) in
          throw AlreadyCheckedIn when
            bool_decide (is_Some (existingAttendance ≫= checkInTime)) ;;
          match auto_register now event eventId userId s with
          | Err e => Err e
          | Ok s1 => Ok (process_checkin now eventId userId existingAttendance s1)
          end
      end
  end.

Definition revokeQRCode (eventId : string) (s : Store) : result Store :=
  match find_index (active_for eventId) (qrCodes s) with
  | None => Err NoActiveToken
  | Some (id, qrCode) => Ok (set_qrCodes (alter deactivate id) s)
  end.

Definition validateCheckinToken (now : Time) (eventId token : string) (s : Store)
    : result TokenInfo :=
  let parts := split colon token in
  throw InvalidFormat when
    (length parts <? 4)%nat
    || negb (bool_decide (part 0 parts = Some "event-checkin"%string)) ;;
  throw EventMismatch when negb (bool_decide (part 1 parts = Some eventId)) ;;
  match findFirst (matches eventId token) (qrCodes s) with
  | None => Err TokenNotFound
  | Some qrCodeRecord =>
      throw TokenExpired when (expiresAt qrCodeRecord <? now) ;;
      match events s !! eventId with
      | None => Err StoreError (* excluded by the foreign key on eventId *)
      | Some event =>
          throw EventInactive when negb (isActive event) ;;
          throw EventNotStarted when (now <? startDate event) ;;
          throw EventEnded when (endDate event <? now) ;;
          Ok (mkTokenInfo eventId (title event) (startDate event) (endDate event)
                (registrationRequired event) (registrationDeadline event)
                (maxAttendees event) (currentAttendees event) true
                (expiresAt qrCodeRecord))
      end
  end.

Definition checkInWithToken (now : Time) (eventId token userId : string) (s : Store)
    : result (Attendance * Store) :=
  check validateCheckinToken now eventId token s ;;
  match events s !! eventId with
  | None => Err EventNotFound
  | Some event =>
      let existingAttendance := attendances s !! (eventId, userId) in
      throw AlreadyCheckedIn when
        bool_decide (is_Some (existingAttendance ≫= checkInTime)) ;;
      match auto_register now event eventId userId s with
      | Err e => Err e
      | Ok s1 => Ok (process_checkin now eventId userId existingAttendance s1)
      end
  end.

Definition cleanupExpiredQRCodes (now : Time) (s : Store) : Store :=
  set_qrCodes (deactivate_where (fun q => (expiresAt q <? now) && qr_isActive q)) s.

Record ActiveQRCode : Type := mkActiveQRCode {
  a_id : nat;
  a_eventId : string;
  a_type : string;
  a_expiresAt : Time;
  a_createdAt : Time;
  a_event : option (string * Time * Time)   (* title, startDate, endDate *)
}.

Definition getActiveQRCode (eventId : string) (s : Store) : option ActiveQRCode :=
  match find_index (active_for eventId) (qrCodes s) with
  | None => None
  | Some (id, qrCode) =>
      Some (mkActiveQRCode id (qr_eventId qrCode) (qr_type qrCode) (expiresAt qrCode)
              (createdAt qrCode)
              ((fun e => (title e, startDate e, endDate e))
                 <$> events s !! qr_eventId qrCode))
  end.

End QRCodeService.

(** [EventController.checkInQR], the handler of POST /api/events/:id/checkin-qr:
    the route's event id is read and not passed on. *)
Definition checkInQR (now : Time) (routeEventId qrData_ userId : string) (s : Store)
    : result (Attendance * Store) :=
  QRCodeService.validateAndCheckIn now qrData_ userId s.

(** ** The public operations as one request type *)

Inductive Op : Type :=
  | UpdateEvent (id : string) (updateData : UpdateEventDto)
                (currentUserId : string) (currentUserRole : Role)
  | Register (eventId userId : string)
  | Cancel (eventId userId : string)
  | CheckIn (eventId userId : string) (notes_ : option string)
  | CheckOut (eventId userId : string) (notes_ : option string)
  | EventCheckIn (eventId userId : string) (notes_ : option string)
  | EventCheckOut (eventId userId : string) (notes_ : option string)
  | MarkAttendance (eventId userId : string)
  | GenerateQR (eventId : string) (expirationHours : Z)
  | CheckInQR (routeEventId qrData_ userId : string)
  | RevokeQR (eventId : string)
  | ValidateToken (eventId token : string)
  | CheckInWithToken (eventId token userId : string)
  | CleanupQR.

Inductive Reply : Type :=
  | RNone
  | REvent (e : Event)
  | RAttendance (a : Attendance)
  | RMarked (m : MarkedAttendance)
  | RGenerated (g : GeneratedQRCode)
  | RTokenInfo (t : TokenInfo).

Definition reply {A} (f : A -> Reply) (r : result (A * Store)) : result (Reply * Store) :=
  match r with
  | Ok (a, s) => Ok (f a, s)
  | Err e => Err e
  end.

Definition silent (r : result Store) : result (Reply * Store) :=
  match r with
  | Ok s => Ok (RNone, s)
  | Err e => Err e
  end.

(** One request served by the process with platform [P] and environment
    [env] at time [now]. *)
Definition run (P : Platform) (env : Env) (now : Time) (op : Op) (s : Store)
    : result (Reply * Store) :=
  match op with
  | UpdateEvent id d uid role => reply REvent (EventService.updateEvent id d uid role s)
  | Register e u => silent (EventService.registerForEvent now e u s)
  | Cancel e u => silent (EventService.cancelRegistration now e u s)
  | CheckIn e u n => reply RAttendance (AttendanceService.checkIn now e u n s)
  | CheckOut e u n => reply RAttendance (AttendanceService.checkOut now e u n s)
  | EventCheckIn e u n => silent (EventService.checkIn now e u n s)
  | EventCheckOut e u n => silent (EventService.checkOut now e u n s)
  | MarkAttendance e u => reply RMarked (EventService.markAttendance now e u s)
  | GenerateQR e h => reply RGenerated (QRCodeService.generateEventQR P env now e h s)
  | CheckInQR r q u => reply RAttendance (checkInQR now r q u s)
  | RevokeQR e => silent (QRCodeService.revokeQRCode e s)
  | ValidateToken e t =>
      match QRCodeService.validateCheckinToken now e t s with
      | Ok info => Ok (RTokenInfo info, s)
      | Err err => Err err
      end
  | CheckInWithToken e t u => reply RAttendance (QRCodeService.checkInWithToken now e t u s)
  | CleanupQR => Ok (RNone, QRCodeService.cleanupExpiredQRCodes now s)
  end.

(** The store a request leaves behind: a failed request leaves it as it was. *)
Definition post (P : Platform) (env : Env) (now : Time) (op : Op) (s : Store) : Store :=
  match run P env now op s with
  | Ok (_, s') => s'
  | Err _ => s
  end.

(** The requests that take a check-in token from the caller. *)
Definition consumes_token (op : Op) : bool :=
  match op with
  | ValidateToken _ _ | CheckInWithToken _ _ _ | CheckInQR _ _ _ => true
  | _ => false
  end.

(** ** Concurrent registration

    [registerForEvent] awaits the store three times: the event read, the
    registration read and the transaction.  Between two awaits another
    request may run, so a registration in flight is a task that remembers
    what it has read so far. *)

Inductive RegisterTask : Type :=
  | AwaitEvent (eventId userId : string)
  | AwaitRegistration (eventId userId : string) (event : Event)
  | AwaitTransaction (eventId userId : string)
  | Finished (r : result unit).

(** [prisma.$transaction([create, update])] against the current store: the
    create is refused on a taken key and the update on a missing row, and a
    refused statement rolls the transaction back. *)
Definition transaction (now : Time) (eventId userId : string) (s : Store)
    : result Store :=
  match registrations s !! (eventId, userId), events s !! eventId with
  | None, Some _ => Ok (commit_registration now eventId userId s)
  | _, _ => Err StoreError
  end.

(** One store round trip of a task, with the synchronous code that follows it. *)
Definition step_task (now : Time) (t : RegisterTask) (s : Store) : RegisterTask * Store :=
  match t with
  | AwaitEvent eventId userId =>
      match events s !! eventId with
      | None => (Finished (Err EventNotFound), s)
      | Some event =>
          if negb (isActive event) then (Finished (Err EventInactive), s)
          else if negb (registrationRequired event)
          then (Finished (Err RegistrationNotRequired), s)
          else if startDate event <=? now then (Finished (Err EventAlreadyStarted), s)
          else if match registrationDeadline event with
                  | Some d => d <=? now
                  | None => false
                  end
          then (Finished (Err DeadlinePassed), s)
          else (AwaitRegistration eventId userId event, s)
      end
  | AwaitRegistration eventId userId event =>
      match registrations s !! (eventId, userId) with
      | Some _ => (Finished (Err AlreadyRegistered), s)
      | None =>
          if at_capacity event then (Finished (Err CapacityExceeded), s)
          else (AwaitTransaction eventId userId, s)
      end
  | AwaitTransaction eventId userId =>
      match transaction now eventId userId s with
      | Ok s' => (Finished (Ok tt), s')
      | Err e => (Finished (Err e), s)
      end
  | Finished r => (Finished r, s)
  end.

(** A schedule names, step by step, the task whose round trip completes next. *)
Fixpoint run_schedule (now : Time) (schedule : list nat) (tasks : list RegisterTask)
    (s : Store) : list RegisterTask * Store :=
  match schedule with
  | [] => (tasks, s)
  | i :: rest =>
      match tasks !! i with
      | None => run_schedule now rest tasks s
      | Some t =>
          let '(t', s') := step_task now t s in
          run_schedule now rest (<[i := t']> tasks) s'
      end
  end.

(** ** Concurrent issuance

    [generateEventQR] awaits four times and uses no transaction: the event
    read, the [updateMany] that deactivates the codes of the event, the
    image ([QRCode.toDataURL], which reads no table) and the [create].  The
    expiry and the time stamp of the token are read between the second and
    the third await.  An issuance in flight is a task that remembers what it
    has computed so far. *)

Inductive IssueTask : Type :=
  | AwaitEventRow (eventId : string) (expirationHours : Z)
  | AwaitDeactivated (eventId : string) (expirationHours : Z)
  | AwaitImage (eventId : string) (expiresAt_ : Time) (token frontendUrl : string)
  | AwaitCreated (eventId : string) (expiresAt_ : Time) (g : GeneratedQRCode)
  | Issued (r : result GeneratedQRCode).

(** One await of an issuance completing at [now], with the synchronous code
    that follows it. *)
Definition step_issue (P : Platform) (env : Env) (now : Time) (t : IssueTask) (s : Store)
    : IssueTask * Store :=
  match t with
  | AwaitEventRow eventId expirationHours =>
      match events s !! eventId with
      | None => (Issued (Err EventNotFound), s)
      | Some event =>
          if negb (isActive event) then (Issued (Err EventInactive), s)
          else (AwaitDeactivated eventId expirationHours, s)
      end
  | AwaitDeactivated eventId expirationHours =>
      let expiresAt_ := now + expirationHours * 60 * 60 * 1000 in
      let token := QRCodeService.secureToken P env eventId now in
      let frontendUrl :=
        render (FRONTEND_URL env) +:+ "/events/" +:+ eventId +:+ "/checkin?token="
        +:+ encodeURIComponent P token in
      (AwaitImage eventId expiresAt_ token frontendUrl,
       set_qrCodes (QRCodeService.deactivate_where (QRCodeService.active_for eventId)) s)
  | AwaitImage eventId expiresAt_ token frontendUrl =>
      (AwaitCreated eventId expiresAt_
         (mkGenerated (toDataURL P frontendUrl) token frontendUrl expiresAt_ eventId), s)
  | AwaitCreated eventId expiresAt_ g =>
      (Issued (Ok g),
       set_qrCodes
         (fun l => l ++ [mkQRCode eventId (g_qrData g) "secure" expiresAt_ true now]) s)
  | Issued r => (Issued r, s)
  end.

(** A schedule names, await by await, the time and the task whose await
    completes. *)
Fixpoint run_issues (P : Platform) (env : Env) (schedule : list (Time * nat))
    (tasks : list IssueTask) (s : Store) : list IssueTask * Store :=
  match schedule with
  | [] => (tasks, s)
  | (now, i) :: rest =>
      match tasks !! i with
      | None => run_issues P env rest tasks s
      | Some t =>
          let '(t', s') := step_issue P env now t s in
          run_issues P env rest (<[i := t']> tasks) s'
      end
  end.

(** Where the expiry of an issuance is computed exactly: a whole number of
    hours whose milliseconds, and whose sum with the time of the call, stay
    within 2^53, the sum within the 8.64e15 ms of a valid [Date]. *)
Definition exact_expiry (now : Time) (expirationHours : Z) : Prop :=
  0 <= now <= 8640000000000000
  /\ Z.abs (expirationHours * 60 * 60 * 1000) <= 9007199254740992
  /\ Z.abs (now + expirationHours * 60 * 60 * 1000) <= 8640000000000000.

(** The registrations of an event that hold CONFIRMED status. *)
Definition confirmed_for (eventId : string) (s : Store)
    : gmap (string * string) Registration :=
  filter (fun kv => fst (fst kv) = eventId /\ reg_status (snd kv) = "CONFIRMED"%string)
         (registrations s).

(** ** Invariants and predicates used in the statements *)




(** A run of requests, each served at its own time. *)
Fixpoint post_all (P : Platform) (env : Env) (trace : list (Time * Op)) (s : Store)
    : Store :=
  match trace with
  | [] => s
  | (now, op) :: rest => post_all P env rest (post P env now op s)
  end.


Fixpoint colon_free (s : string) : bool :=
  match s with
  | EmptyString => true
  | String c r => negb (Ascii.eqb c colon) && colon_free r
  end.

(** The active QR codes of an event. *)
Abbreviation active_rows eventId l :=
  (filter (fun q => QRCodeService.active_for eventId q = true) l).

(** At most one active QR code per event. *)
Definition one_active (s : Store) : Prop :=
  forall eventId, (length (active_rows eventId (qrCodes s)) <= 1)%nat.

(** What the format checks of a token consumer establish: at least [n]
    colon-separated parts, the literal first part, the event id second. *)
Definition accepted_shape (n : nat) (eventId token : string) : Prop :=
  (n <= length (split colon token))%nat
  /\ part 0 (split colon token) = Some "event-checkin"%string
  /\ part 1 (split colon token) = Some eventId.

(** The token is the [qrData] of an active row of the event. *)
Definition stored_active (eventId token : string) (s : Store) : Prop :=
  exists q, q ∈ qrCodes s /\ qr_eventId q = eventId /\ qrData q = token
            /\ qr_isActive q = true.

(** The attendance state of an (event, user) pair, read off the two
    timestamps the transitions are guarded by. *)
Inductive AttendanceState : Type := StNone | StCheckedIn | StCheckedOut.

Definition attendance_state (s : Store) (eventId userId : string) : AttendanceState :=
  match attendances s !! (eventId, userId) with
  | None => StNone
  | Some a =>
      match checkInTime a, checkOutTime a with
      | Some _, Some _ => StCheckedOut
      | Some _, None => StCheckedIn
      | None, _ => StNone
      end
  end.

(** ** What a registration request may answer

    The answer of [Register(eventId, userId)] case by case, in the order the
    checks are made; each case assumes that the earlier ones did not apply. *)

Definition open_for_registration (now : Time) (e : Event) : Prop :=
  isActive e = true /\ registrationRequired e = true /\ now < startDate e
  /\ forall d, registrationDeadline e = Some d -> now < d.

Definition has_room (e : Event) : Prop :=
  forall m, maxAttendees e = Some m -> m = 0 \/ currentAttendees e < m.

Inductive register_outcome (now : Time) (eventId userId : string) (s : Store)
    : result Store -> Prop :=
  | reg_not_found :
      events s !! eventId = None ->
      register_outcome now eventId userId s (Err EventNotFound)
  | reg_inactive e :
      events s !! eventId = Some e -> isActive e = false ->
      register_outcome now eventId userId s (Err EventInactive)
  | reg_not_required e :
      events s !! eventId = Some e -> isActive e = true ->
      registrationRequired e = false ->
      register_outcome now eventId userId s (Err RegistrationNotRequired)
  | reg_started e :
      events s !! eventId = Some e -> isActive e = true ->
      registrationRequired e = true -> startDate e <= now ->
      register_outcome now eventId userId s (Err EventAlreadyStarted)
  | reg_deadline e d :
      events s !! eventId = Some e -> isActive e = true ->
      registrationRequired e = true -> now < startDate e ->
      registrationDeadline e = Some d -> d <= now ->
      register_outcome now eventId userId s (Err DeadlinePassed)
  | reg_already e r :
      events s !! eventId = Some e -> open_for_registration now e ->
      registrations s !! (eventId, userId) = Some r ->
      register_outcome now eventId userId s (Err AlreadyRegistered)
  | reg_capacity e m :
      events s !! eventId = Some e -> open_for_registration now e ->
      registrations s !! (eventId, userId) = None ->
      maxAttendees e = Some m -> m <> 0 -> m <= currentAttendees e ->
      register_outcome now eventId userId s (Err CapacityExceeded)
  | reg_success e s' :
      events s !! eventId = Some e -> open_for_registration now e ->
      registrations s !! (eventId, userId) = None ->
      has_room e ->
      registrations s' =
        <[(eventId, userId) := mkRegistration "CONFIRMED" now]> (registrations s) ->
      events s' = <[eventId := bump 1 e]> (events s) ->
      users s' = users s -> attendances s' = attendances s ->
      qrCodes s' = qrCodes s ->
      register_outcome now eventId userId s (Ok s').

(** ** Sample data *)

Definition sample_event (start_ end_ : Time) (max : option Z) (current : Z)
    (required : bool) (deadline : option Time) : Event :=
  mkEvent "Friday Prayer" "Weekly Friday prayer at the main mosque" start_ end_
          "Main Mosque" max current PRAYER None required deadline true "admin".

Definition sample_store (eventId : string) (e : Event) : Store :=
  mkStore {[ "admin"%string := ADMIN ]} {[ eventId := e ]} ∅ ∅ [].

Definition set_max (m : Z) : UpdateEventDto :=
  mkUpdate None None None None None (Some m) None None None None None None None.

Definition set_required (b : bool) : UpdateEventDto :=
  mkUpdate None None None None None None None None (Some b) None None None None.


(** A stand-in platform for closed examples: the digest is a fixed hex
    string, [encodeURIComponent] and [toDataURL] are the identity. *)
Definition demo_platform : Platform :=
  mkPlatform (fun _ _ => "5e884898da28047151d0e56f8dc62927"%string) id id.

Definition demo_env : Env := mkEnv (Some "s3cret"%string) (Some "https://app.example"%string).

Definition other_env : Env := mkEnv None None.



Definition fresh_store (max : option Z) : Store :=
  sample_store "e1" (sample_event 1000 2000 max 0 true None).

(** Two members ask for the last seat of an event at the same time: both
    requests read the event before either commits. *)
Definition last_seat_tasks : list RegisterTask :=
  [ AwaitEvent "e1" "amina"; AwaitEvent "e1" "bilal" ].

Definition interleaved : list nat := [0; 1; 0; 1; 0; 1]%nat.

Definition one_after_the_other : list nat := [0; 0; 0; 1; 1; 1]%nat.

(** A running event (from 0 to 100) with a QR code issued at time 10. *)
Definition running_event (max : option Z) (current : Z) (required : bool)
    (deadline : option Time) : Event :=
  sample_event 0 100 max current required deadline.

Definition with_qr (s : Store) : Store :=
  post demo_platform demo_env 10 (GenerateQR "e1" 24) s.

Definition demo_token : string :=
  QRCodeService.secureToken demo_platform demo_env "e1" 10.

(** Registration closes at 50, in the middle of the event. *)
Definition deadline_store : Store :=
  with_qr (sample_store "e1" (running_event (Some 5) 0 true (Some 50))).

(** The same deadline on an event that has not started. *)
Definition upcoming_store : Store :=
  sample_store "e1" (sample_event 1000 2000 (Some 5) 0 true (Some 50)).

(** A member checks in while the event asks for no registration; the event
    is then switched to registration required and a QR code is issued. *)
Definition switched_store : Store :=
  post_all demo_platform demo_env
    [ (5, CheckIn "e1" "amina" None);
      (8, UpdateEvent "e1" (set_required true) "admin" ADMIN);
      (10, GenerateQR "e1" 24) ]
    (sample_store "e1" (running_event (Some 5) 0 false None)).

(** A member with a confirmed registration, on the running sample event. *)
Definition registered_store : Store :=
  set_registrations (insert ("e1"%string, "amina"%string) (mkRegistration "CONFIRMED" 0))
    (sample_store "e1" (running_event (Some 5) 1 true None)).

Definition checked_in_store : Store :=
  post demo_platform demo_env 10 (CheckIn "e1" "amina" None) registered_store.


(** A registration left over in another status, on the running sample event. *)
Definition waitlisted_store : Store :=
  set_registrations (insert ("e1"%string, "amina"%string) (mkRegistration "WAITLISTED" 0))
    (sample_store "e1" (running_event (Some 5) 1 true None)).

(** Two issuances for the running sample event, at 10 and at 20. *)
Definition reissued_store : Store :=
  post demo_platform demo_env 20 (GenerateQR "e1" 24)
    (with_qr (sample_store "e1" (running_event (Some 5) 0 true None))).

(** A QR code issued at 10 for an event that starts at 1000. *)
Definition early_qr_store : Store := with_qr upcoming_store.

(** The running sample event with one hand-written active row in the QR table. *)
Definition stored_token_store (data : string) : Store :=
  set_qrCodes (fun _ => [mkQRCode "e1" data "secure" 1000 true 0])
    (sample_store "e1" (running_event (Some 5) 0 false None)).

Definition forged_token : string :=
  QRCodeService.secureData "e1" 10 +:+ ":" +:+ "forged".

(** The scenario of one seat: A registers, B is refused, A cancels, B registers. *)
Definition one_seat_trace : list (Time * Op) :=
  [ (1, Register "e1" "amina"); (2, Register "e1" "bilal");
    (3, Cancel "e1" "amina"); (4, Register "e1" "bilal") ].

(** A day-long event with a code issued at time 0 for one hour. *)
Definition hour_code_store : Store :=
  post demo_platform demo_env 0 (GenerateQR "e1" 1)
    (sample_store "e1" (sample_event 0 86400000 None 0 false None)).



(** Two issuances served one after the other within the millisecond 10. *)
Definition same_millisecond_store : Store :=
  post demo_platform demo_env 10 (GenerateQR "e1" 24)
    (with_qr (sample_store "e1" (running_event (Some 5) 0 true None))).

(** ** EventController: the QR handlers *)

Module EventController.

(** The permission test shared by [generateQR], [revokeQR] and [getQRStatus]:
    [role === 'USER' || (role === 'SUBADMIN' && event.createdBy.id !== currentUserId)] *)
Definition may_manage_qr (event : Event) (currentUserId : string) (currentUserRole : Role)
    : bool :=
  negb (EventService.role_eqb currentUserRole USER
        || (EventService.role_eqb currentUserRole SUBADMIN
            && negb (String.eqb (createdById event) currentUserId))).

(** [generateQR] up to its last call: [Ok tt] stands for the call of
    [QRCodeService.generateEventQR(eventId, expirationHours || 24)].  The
    [expirationHours] of the body is JSON that no validator has looked at,
    and what the service makes of a value that is not a whole number of
    hours is outside this model. *)
Definition generateQR (eventId currentUserId : string) (currentUserRole : Role)
    (s : Store) : result unit :=
  match EventService.getEventById eventId s with
  | Err e => Err e
  | Ok event =>
      throw Forbidden when negb (may_manage_qr event currentUserId currentUserRole) ;;
      Ok tt
  end.

Definition revokeQR (eventId currentUserId : string) (currentUserRole : Role) (s : Store)
    : result Store :=
  match EventService.getEventById eventId s with
  | Err e => Err e
  | Ok event =>
      throw Forbidden when negb (may_manage_qr event currentUserId currentUserRole) ;;
      QRCodeService.revokeQRCode eventId s
  end.

Definition getQRStatus (eventId currentUserId : string) (currentUserRole : Role)
    (s : Store) : result (option QRCodeService.ActiveQRCode) :=
  match EventService.getEventById eventId s with
  | Err e => Err e
  | Ok event =>
      throw Forbidden when negb (may_manage_qr event currentUserId currentUserRole) ;;
      Ok (QRCodeService.getActiveQRCode eventId s)
  end.

End EventController.

(** ** The registration ledger *)








(** What a cancellation may answer, case by case in the order of the checks. *)
Inductive cancel_outcome (now : Time) (eventId userId : string) (s : Store)
    : result Store -> Prop :=
  | can_no_registration :
      registrations s !! (eventId, userId) = None ->
      cancel_outcome now eventId userId s (Err RegistrationNotFound)
  | can_no_event r :
      registrations s !! (eventId, userId) = Some r ->
      events s !! eventId = None ->
      cancel_outcome now eventId userId s (Err EventNotFound)
  | can_started r e :
      registrations s !! (eventId, userId) = Some r ->
      events s !! eventId = Some e -> startDate e <= now ->
      cancel_outcome now eventId userId s (Err EventAlreadyStarted)
  | can_success r e s' :
      registrations s !! (eventId, userId) = Some r ->
      events s !! eventId = Some e -> now < startDate e ->
      registrations s' = delete (eventId, userId) (registrations s) ->
      events s' = <[eventId := bump (-1) e]> (events s) ->
      users s' = users s -> attendances s' = attendances s ->
      qrCodes s' = qrCodes s ->
      cancel_outcome now eventId userId s (Ok s').

(** ** Check-in requests *)

(** The (event, user) pair a check-in request is for; the QR check-in by
    [qrData] takes the event from the second part of the token. *)
Definition check_in_target (op : Op) : option (string * string) :=
  match op with
  | CheckIn e u _ | EventCheckIn e u _ | MarkAttendance e u
  | CheckInWithToken e _ u => Some (e, u)
  | CheckInQR _ q u => Some (default EmptyString (part 1 (split colon q)), u)
  | _ => None
  end.


(** The requests of the attendance endpoints that take no token. *)
Definition attendance_only (op : Op) : option (string * string) :=
  match op with
  | CheckIn e u _ | CheckOut e u _ | EventCheckIn e u _ | EventCheckOut e u _
  | MarkAttendance e u => Some (e, u)
  | _ => None
  end.

(** ** QR rows over time *)

(** A row is as it was, or has been deactivated. *)
Definition aged (q q' : QRCode) : Prop := q' = q \/ q' = QRCodeService.deactivate q.

(** Every row of [l] is still in [l'], at its place, as it was or deactivated. *)
Definition table_aged (l l' : list QRCode) : Prop :=
  forall i q, l !! i = Some q -> exists q', l' !! i = Some q' /\ aged q q'.

(** ** Users *)

(** [UserService.updateUser] and [UserService.deleteUser] over the user
    table.  [Store] above keeps the one column of this table that the event
    services read (the role); here a row has the columns the update can
    write.  The password and the time stamps are read by neither function. *)
Module UserService.

Inductive Gender : Type := MALE | FEMALE.

Record User : Type := mkUser {
  email : option string;
  phone : option string;
  firstName : string;
  lastName : string;
  gender : option Gender;
  role : Role;
  isVerified : bool;
  profileImage : option string
}.

(** The user table by primary key [id]. *)
Abbreviation UserTable := (gmap string User).

(** The [code] of a [createError] of the two functions; [P2002] is the
    unique constraint error of [prisma.user.update]. *)
Inductive UserError : Type :=
  | USER_NOT_FOUND          (* 404 *)
  | UNAUTHORIZED            (* 403 *)
  | INVALID_CONTACT_METHOD  (* 400 *)
  | EMAIL_EXISTS            (* 409 *)
  | PHONE_EXISTS            (* 409 *)
  | P2002.

(** A contact field of the request body: absent, [null], or a string.  The
    function compares both contact fields with [null], so [null] arrives. *)
Inductive Field (A : Type) : Type :=
  | Undefined
  | Null
  | Value (a : A).
Arguments Undefined {A}.
Arguments Null {A}.
Arguments Value {A} a.

(** [UpdateUserDto] *)
Record UpdateUserDto : Type := mkUpdateUser {
  new_firstName : option string;
  new_lastName : option string;
  new_email : Field string;
  new_phone : Field string;
  new_gender : option Gender;
  new_role : option Role;
  new_profileImage : option string;
  new_isVerified : option bool
}.

Definition is_null {A} (f : Field A) : bool :=
  match f with Null => true | _ => false end.

(** [f && ...]: absent, [null] and the empty string are falsy. *)
Definition truthy (f : Field string) : option string :=
  match f with
  | Value EmptyString => None
  | Value v => Some v
  | _ => None
  end.

(** What [data: { column: f }] leaves in a nullable column. *)
Definition written {A} (f : Field A) (old : option A) : option A :=
  match f with
  | Undefined => old
  | Null => None
  | Value v => Some v
  end.

(** [data: updateData] *)
Definition apply_update (d : UpdateUserDto) (u : User) : User :=
  mkUser (written (new_email d) (email u))
         (written (new_phone d) (phone u))
         (default (firstName u) (new_firstName d))
         (default (lastName u) (new_lastName d))
         (match new_gender d with Some g => Some g | None => gender u end)
         (default (role u) (new_role d))
         (default (isVerified u) (new_isVerified d))
         (match new_profileImage d with Some i => Some i | None => profileImage u end).

(** [findUnique({ where: { email } })] (or [phone]) finds a row. *)
Definition taken (column : User -> option string) (v : string) (t : UserTable) : bool :=
  bool_decide (map_Exists (fun _ w => column w = Some v) t).

(** The unique index on [email] and on [phone]: writing row [id] is rejected
    when another row holds the same value ([null] is no value). *)
Definition clashes (column : User -> option string) (id : string) (u : User)
    (t : UserTable) : bool :=
  match column u with
  | Some v => bool_decide (map_Exists (fun j w => j <> id /\ column w = Some v) t)
  | None => false
  end.

Definition role_is (a b : Role) : bool := EventService.role_eqb a b.

Definition updateUser (id : string) (updateData : UpdateUserDto)
    (currentUserRole : Role) (currentUserId : string) (t : UserTable)
    : UserError + (User * UserTable) :=
  match t !! id with
  | None => inl USER_NOT_FOUND
  | Some existingUser =>
      if role_is currentUserRole USER && negb (String.eqb currentUserId id)
      then inl UNAUTHORIZED
      else if role_is currentUserRole SUBADMIN && role_is (role existingUser) ADMIN
      then inl UNAUTHORIZED
      else if role_is currentUserRole SUBADMIN
              && match new_role updateData with
                 | Some r => role_is r ADMIN
                 | None => false
                 end
      then inl UNAUTHORIZED
      else if role_is currentUserRole SUBADMIN
              && (role_is (role existingUser) SUBADMIN
                  && negb (String.eqb currentUserId id))
      then inl UNAUTHORIZED
      else if is_null (new_email updateData) && is_null (new_phone updateData)
      then inl INVALID_CONTACT_METHOD
      else if match truthy (new_email updateData) with
              | Some e => negb (bool_decide (email existingUser = Some e)) && taken email e t
              | None => false
              end
      then inl EMAIL_EXISTS
      else if match truthy (new_phone updateData) with
              | Some p => negb (bool_decide (phone existingUser = Some p)) && taken phone p t
              | None => false
              end
      then inl PHONE_EXISTS
      else
        let updatedUser := apply_update updateData existingUser in
        if clashes email id updatedUser t || clashes phone id updatedUser t
        then inl P2002
        else inr (updatedUser, <[id := updatedUser]> t)
  end.

(** [deleteUser] up to its last statement: [inr tt] stands for the call of
    [prisma.user.delete({ where: { id } })]. *)
Definition deleteUser (id : string) (currentUserRole : Role) (currentUserId : string)
    (t : UserTable) : UserError + unit :=
  match t !! id with
  | None => inl USER_NOT_FOUND
  | Some existingUser =>
      if role_is currentUserRole USER && negb (String.eqb currentUserId id)
      then inl UNAUTHORIZED
      else if role_is currentUserRole SUBADMIN && role_is (role existingUser) ADMIN
      then inl UNAUTHORIZED
      else if role_is currentUserRole SUBADMIN
              && (role_is (role existingUser) SUBADMIN
                  && negb (String.eqb currentUserId id))
      then inl UNAUTHORIZED
      else if String.eqb currentUserId id && role_is currentUserRole ADMIN
      then inl UNAUTHORIZED
      else inr tt
  end.

(** The two unique indexes hold: no row clashes with another. *)
Definition unique_contacts (t : UserTable) : Prop :=
  map_Forall (fun i u => clashes email i u t = false /\ clashes phone i u t = false) t.

End UserService.

(** ** The session middleware *)

(** [str.substring(n)] *)
Fixpoint substring_from (n : nat) (s : string) : string :=
  match n, s with
  | O, _ => s
  | S n', String _ r => substring_from n' r
  | S _, EmptyString => EmptyString
  end.

(** [extractTokenFromHeader]: the header may be missing; the empty header is
    falsy. *)
Definition extractTokenFromHeader (authHeader : option string) : option string :=
  match authHeader with
  | None => None
  | Some EmptyString => None
  | Some h => if String.prefix "Bearer " h then Some (substring_from 7 h) else None
  end.

Module AuthMiddleware.

(** [req.user] *)
Record JwtPayload : Type := mkPayload {
  userId : string;
  jwt_email : option string;
  jwt_phone : option string;
  jwt_role : Role
}.

(** The answers of the middleware that end a request. *)
Inductive Denied : Type :=
  | AccessTokenRequired     (* 401 'Access token required' *)
  | InvalidOrExpiredToken   (* 401 'Invalid or expired token' *)
  | UserNotFound            (* 401 'User not found' *)
  | AccountNotVerified      (* 403 'Account not verified' *)
  | AuthenticationRequired  (* 401 'Authentication required' *)
  | InsufficientPermissions (* 403 'Insufficient permissions' *).

(** [authenticate]: [verifyToken] is [jwt.verify] with the secret, giving the
    [userId] of the payload, or [None] where it throws; [inr] is [next()]
    with [req.user] set. *)
Definition authenticate (verifyToken : string -> option string)
    (authorization : option string) (t : UserService.UserTable)
    : Denied + JwtPayload :=
  match extractTokenFromHeader authorization with
  | None | Some EmptyString => inl AccessTokenRequired
  | Some token =>
      match verifyToken token with
      | None => inl InvalidOrExpiredToken
      | Some decoded_userId =>
          match t !! decoded_userId with
          | None => inl UserNotFound
          | Some user =>
              if negb (UserService.isVerified user) then inl AccountNotVerified
              else inr (mkPayload decoded_userId
                                  (or_string (UserService.email user) None)
                                  (or_string (UserService.phone user) None)
                                  (UserService.role user))
          end
      end
  end.

(** [authorize(...roles)] on [req.user] *)
Definition authorize (roles : list Role) (user : option JwtPayload) : Denied + unit :=
  match user with
  | None => inl AuthenticationRequired
  | Some u =>
      if existsb (EventService.role_eqb (jwt_role u)) roles then inr tt
      else inl InsufficientPermissions
  end.

Definition requireAdmin := authorize [ADMIN].
Definition requireSubAdmin := authorize [ADMIN; SUBADMIN].
Definition requireUser := authorize [ADMIN; SUBADMIN; USER].

End AuthMiddleware.

(** ** One-time passwords *)

Module Otp.

(** The Redis keys the functions use: a value and the instant it expires. *)
Abbreviation Redis := (gmap string (string * Time)).

(** [GET key] at [now]: a key is gone once [now] is past its expiry. *)
Definition get (key : string) (now : Time) (r : Redis) : option string :=
  match r !! key with
  | Some (v, expiry) => if expiry <? now then None else Some v
  | None => None
  end.

(** [SETEX key seconds value] at [now]; Redis rejects an expire time that is
    not positive. *)
Definition setEx (key : string) (seconds : Z) (v : string) (now : Time) (r : Redis)
    : option Redis :=
  if 0 <? seconds then Some (<[key := (v, now + seconds * 1000)]> r) else None.

(** [DEL key] *)
Definition del (key : string) (r : Redis) : Redis := delete key r.

(** The constants of the module: [process.env.OTP_SECRET] and the number
    [parseInt] made of [process.env.OTP_EXPIRES_IN || '300']. *)
Record Config : Type := mkConfig {
  OTP_SECRET : option string;
  OTP_EXPIRES_IN : Z
}.

Definition hashOTP (P : Platform) (c : Config) (otp : string) : string :=
  hmac_sha256_hex P (default "fallback-otp-secret"%string (or_string (OTP_SECRET c) None))
                  otp.

Definition otp_key (phone : string) : string := "otp:" +:+ phone.

Definition email_key (email : string) : string := "email_verification:" +:+ email.

Definition storeOTP (c : Config) (phone hashedOTP : string) (now : Time) (r : Redis)
    : option Redis :=
  setEx (otp_key phone) (OTP_EXPIRES_IN c) hashedOTP now r.

(** [if (!stored) return false]: a missing key and the empty string. *)
Definition verifyOTP (P : Platform) (c : Config) (phone otp : string) (now : Time)
    (r : Redis) : bool * Redis :=
  match get (otp_key phone) now r with
  | None | Some EmptyString => (false, r)
  | Some storedHashedOTP =>
      if String.eqb storedHashedOTP (hashOTP P c otp)
      then (true, del (otp_key phone) r)
      else (false, r)
  end.

Definition storeEmailVerificationToken (email token : string) (now : Time) (r : Redis)
    : option Redis :=
  setEx (email_key email) 3600 token now r.

Definition verifyEmailVerificationToken (email token : string) (now : Time) (r : Redis)
    : bool * Redis :=
  match get (email_key email) now r with
  | None | Some EmptyString => (false, r)
  | Some storedToken =>
      if String.eqb storedToken token
      then (true, del (email_key email) r)
      else (false, r)
  end.

(** A run of calls of [verifyOTP] for one phone, each at its time: the
    answers and the keys left. *)
Fixpoint verify_each (P : Platform) (c : Config) (phone : string)
    (guesses : list (Time * string)) (r : Redis) : list bool * Redis :=
  match guesses with
  | [] => ([], r)
  | (now, otp) :: rest =>
      let '(b, r1) := verifyOTP P c phone otp now r in
      let '(bs, r2) := verify_each P c phone rest r1 in
      (b :: bs, r2)
  end.

End Otp.

(** ** The phone number validator *)

Module Validation.

(** A JavaScript string as its UTF-16 code units: the character classes of
    the two regular expressions are sets of code units. *)
Abbreviation CodeUnits := (list Z).

(** [\s]: white space and line terminators. *)
Definition is_space (c : Z) : bool :=
  ((9 <=? c) && (c <=? 13)) || (c =? 32) || (c =? 160) || (c =? 5760)
  || ((8192 <=? c) && (c <=? 8202)) || (c =? 8232) || (c =? 8233)
  || (c =? 8239) || (c =? 8287) || (c =? 12288) || (c =? 65279).

(** [[\s\-\(\)]] *)
Definition is_separator (c : Z) : bool :=
  is_space c || (c =? 45) || (c =? 40) || (c =? 41).

(** [\d] *)
Definition is_digit (c : Z) : bool := (48 <=? c) && (c <=? 57).

(** [phone.replace(/[\s\-\(\)]/g, '')] *)
Definition cleanPhone (phone : CodeUnits) : CodeUnits :=
  List.filter (fun c => negb (is_separator c)) phone.

(** [[1-9]\d{8,9}$] *)
Definition subscriber (l : CodeUnits) : bool :=
  match l with
  | [] => false
  | c :: ds =>
      (49 <=? c) && (c <=? 57) && forallb is_digit ds
      && (Nat.eqb (length ds) 8 || Nat.eqb (length ds) 9)
  end.

(** [/^(\+?44|0)[1-9]\d{8,9}$/.test(l)]: the three ways the group matches
    start with different code units. *)
Definition ukPhoneRegex (l : CodeUnits) : bool :=
  match l with
  | 43 :: 52 :: 52 :: r => subscriber r
  | 52 :: 52 :: r => subscriber r
  | 48 :: r => subscriber r
  | _ => false
  end.

Definition validateUKPhoneNumber (phone : CodeUnits) : bool :=
  ukPhoneRegex (cleanPhone phone).

End Validation.

(** ** Sample users and keys *)

Definition sample_user (r : Role) (mail : string) : UserService.User :=
  UserService.mkUser (Some mail) None "Amina" "Yusuf" (Some UserService.FEMALE) r true None.

Definition sample_users : UserService.UserTable :=
  {[ "u1"%string := sample_user USER "amina@example.org";
     "u2"%string := sample_user SUBADMIN "bilal@example.org";
     "u3"%string := sample_user ADMIN "chair@example.org" ]}.

(** A body that sets the role and nothing else. *)
Definition role_only (r : Role) : UserService.UpdateUserDto :=
  UserService.mkUpdateUser None None UserService.Undefined UserService.Undefined
                           None (Some r) None None.

Definition demo_config : Otp.Config := Otp.mkConfig (Some "otp-secret"%string) 300.

(** A stand-in for the HMAC that tells messages apart. *)
Definition tagging_platform : Platform :=
  mkPlatform (fun key msg => key +:+ "/" +:+ msg) id id.

(** ** Proof support *)

Ltac unfold_services :=
  unfold post, run, reply, silent, checkInQR,
    EventService.updateEvent, EventService.registerForEvent,
    EventService.cancelRegistration, EventService.checkIn, EventService.checkOut,
    EventService.markAttendance, AttendanceService.checkIn,
    AttendanceService.checkOut, QRCodeService.generateEventQR,
    QRCodeService.validateAndCheckIn, QRCodeService.revokeQRCode,
    QRCodeService.checkInWithToken, QRCodeService.cleanupExpiredQRCodes,
    QRCodeService.auto_register, QRCodeService.process_checkin in *.


Ltac window_facts :=
  repeat match goal with
  | H : (_ <? _) = false |- _ => apply Z.ltb_ge in H
  | H : negb _ = false |- _ => apply negb_false_iff in H
  | H : bool_decide (is_Some _) = false |- _ =>
      apply bool_decide_eq_false, eq_None_not_Some in H
  | H : bool_decide (is_Some _) = true |- _ => apply bool_decide_eq_true in H
  | H : _ && _ = false |- _ => apply andb_false_iff in H
  end.

(** * Properties *)

(** ** Worked scenarios *)

Example one_seat_scenario :
  let s0 := fresh_store (Some 1) in
  is_ok (EventService.registerForEvent 1 "e1" "amina" s0) = true
  /\ EventService.registerForEvent 2 "e1" "bilal"
       (post_all demo_platform demo_env [(1, Register "e1" "amina")] s0)
     = Err CapacityExceeded
  /\ (currentAttendees <$>
       events (post_all demo_platform demo_env (take 3 one_seat_trace) s0) !! "e1"%string)
     = Some 0
  /\ (currentAttendees <$>
       events (post_all demo_platform demo_env one_seat_trace s0) !! "e1"%string)
     = Some 1
  /\ (reg_status <$>
       registrations (post_all demo_platform demo_env one_seat_trace s0)
         !! ("e1"%string, "bilal"%string))
     = Some "CONFIRMED"%string.
Proof. vm_compute. repeat split. Qed.

Example hour_code_scenario :
  let token := QRCodeService.secureToken demo_platform demo_env "e1" 0 in
  token = "event-checkin:e1:0:5e884898da28047151d0e56f8dc62927"%string
  /\ is_ok (QRCodeService.validateCheckinToken 1800000 "e1" token hour_code_store) = true
  /\ QRCodeService.validateCheckinToken 3660000 "e1" token hour_code_store
     = Err TokenExpired.
Proof. vm_compute. repeat split. Qed.

Example split_examples :
  split colon "event-checkin:e1:17:ab" = ["event-checkin"; "e1"; "17"; "ab"]%string
  /\ split colon "a:" = ["a"; EmptyString]%string
  /\ split colon EmptyString = [EmptyString]
  /\ decimal 1700000000000 = "1700000000000"%string
  /\ decimal 0 = "0"%string.
Proof. vm_compute. repeat split. Qed.

(** ** Reading the store after a write *)

Lemma events_commit_registration now eventId userId s :
  events (commit_registration now eventId userId s) = alter (bump 1) eventId (events s).
Proof. reflexivity. Qed.

Lemma registrations_commit_registration now eventId userId s :
  registrations (commit_registration now eventId userId s)
  = <[(eventId, userId) := mkRegistration "CONFIRMED" now]> (registrations s).
Proof. reflexivity. Qed.

Lemma alter_bump_insert k eventId e (m : gmap string Event) :
  m !! eventId = Some e -> alter (bump k) eventId m = <[eventId := bump k e]> m.
Proof.
  intros He. apply map_eq. intros j.
  destruct (decide (eventId = j)) as [<- | Hne].
  - by rewrite lookup_alter_eq, lookup_insert_eq, He.
  - by rewrite lookup_alter_ne, lookup_insert_ne.
Qed.

Lemma at_capacity_true e :
  at_capacity e = true <->
  exists m, maxAttendees e = Some m /\ m <> 0 /\ m <= currentAttendees e.
Proof.
  unfold at_capacity. destruct (maxAttendees e) as [m|]; split.
  - intros [Hz Hle]%andb_true_iff. exists m.
    apply negb_true_iff, Z.eqb_neq in Hz. apply Z.leb_le in Hle. auto.
  - intros (m' & [= <-] & Hz & Hle). apply andb_true_iff. split.
    + by apply negb_true_iff, Z.eqb_neq.
    + by apply Z.leb_le.
  - discriminate.
  - intros (m & Hm & _). discriminate.
Qed.

Lemma at_capacity_false e : at_capacity e = false <-> has_room e.
Proof.
  unfold at_capacity, has_room. destruct (maxAttendees e) as [m|]; split.
  - intros H m' [= <-]. apply andb_false_iff in H as [H | H].
    + left. by apply negb_false_iff, Z.eqb_eq in H.
    + right. apply Z.leb_gt in H. lia.
  - intros H. destruct (H m eq_refl) as [-> | Hlt]; [done |].
    apply andb_false_iff. right. apply Z.leb_gt. lia.
  - intros _ m [=].
  - done.
Qed.

(** ** What a request does to the events table *)



(** ** C1: the capacity invariant *)






(** ** C2: registrations in flight *)

(** Run without interruption, the three round trips of a task are
    [registerForEvent]. *)
Lemma staged_registerForEvent now eventId userId s :
  run_schedule now [0; 0; 0]%nat [AwaitEvent eventId userId] s
  = match EventService.registerForEvent now eventId userId s with
    | Ok s' => ([Finished (Ok tt)], s')
    | Err e => ([Finished (Err e)], s)
    end.
Proof.
  unfold EventService.registerForEvent. simpl.
  destruct (events s !! eventId) as [e|] eqn:He; simpl; [| done].
  destruct (isActive e); simpl; [| done].
  destruct (registrationRequired e); simpl; [| done].
  destruct (startDate e <=? now); simpl; [done |].
  destruct (match registrationDeadline e with
            | Some d => d <=? now | None => false end); simpl; [done |].
  destruct (registrations s !! (eventId, userId)) as [r|] eqn:Hr; simpl; [done |].
  destruct (at_capacity e); simpl; [done |].
  unfold transaction. by rewrite Hr, He.
Qed.

(** C2 (the code at the failing input).  An event with one seat and no one
    registered; two registration requests whose store round trips alternate.
    Both pass the capacity check on the event row they read, both
    transactions commit: two CONFIRMED registrations, a counter of 2 against
    a capacity of 1, and no request answered with CapacityExceeded.  Served
    one after the other, the second request is refused. *)
Theorem concurrent_registrations_overbook :
  let racy := run_schedule 0 interleaved last_seat_tasks (fresh_store (Some 1)) in
  let serial := run_schedule 0 one_after_the_other last_seat_tasks (fresh_store (Some 1)) in
  fst racy = [Finished (Ok tt); Finished (Ok tt)]
  /\ size (confirmed_for "e1" (snd racy)) = 2%nat
  /\ (events (snd racy) !! "e1"%string) = Some (sample_event 1000 2000 (Some 1) 2 true None)
  /\ fst serial = [Finished (Ok tt); Finished (Err CapacityExceeded)]
  /\ size (confirmed_for "e1" (snd serial)) = 1%nat.
Proof. vm_compute. repeat split. Qed.

(** ** C3: the answers of a registration request *)

(** C3 (as amended).  [registerForEvent] answers EventNotFound, EventInactive,
    RegistrationNotRequired, EventAlreadyStarted ([startDate <= now]),
    DeadlinePassed (a deadline is set and [deadline <= now]), AlreadyRegistered
    and CapacityExceeded in this order of precedence, the last one when
    [maxAttendees] is set to a value other than zero and
    [currentAttendees >= maxAttendees]; in every other case it succeeds, adds
    a CONFIRMED registration for (eventId, userId), raises [currentAttendees]
    by exactly one and changes nothing else. *)
Theorem registerForEvent_outcome now eventId userId s :
  register_outcome now eventId userId s (EventService.registerForEvent now eventId userId s).
Proof.
  unfold EventService.registerForEvent.
  destruct (events s !! eventId) as [e|] eqn:He; [| by constructor].
  destruct (isActive e) eqn:Hact; simpl; [| by eapply reg_inactive].
  destruct (registrationRequired e) eqn:Hreq; simpl; [| by eapply reg_not_required].
  destruct (Z.leb_spec (startDate e) now) as [Hstart | Hstart];
    [by eapply reg_started |].
  assert (Hopen_or :
    (exists d, registrationDeadline e = Some d /\ d <= now
               /\ match registrationDeadline e with
                  | Some d => d <=? now | None => false end = true)
    \/ (open_for_registration now e
        /\ match registrationDeadline e with
           | Some d => d <=? now | None => false end = false)).
  { unfold open_for_registration.
    destruct (registrationDeadline e) as [d|].
    - destruct (Z.leb_spec d now); [left; eauto |].
      right. repeat split; auto. intros d' [= <-]. lia.
    - right. repeat split; auto. intros d' [=]. }
  destruct Hopen_or as [(d & Hd & Hle & ->) | [Hopen ->]];
    [by eapply reg_deadline |].
  destruct (registrations s !! (eventId, userId)) as [r|] eqn:Hr;
    [by eapply reg_already |].
  destruct (at_capacity e) eqn:Hcap.
  - apply at_capacity_true in Hcap as (m & Hm & Hz & Hle). by eapply reg_capacity.
  - apply at_capacity_false in Hcap. eapply reg_success; eauto.
    rewrite events_commit_registration. by apply alter_bump_insert.
Qed.

(** C3 (counterexample).  An event with [maxAttendees = 0] is full from the
    start: it exists, is open for registration, the member is not registered
    and [currentAttendees >= maxAttendees].  Yet [event.maxAttendees && ...]
    reads the 0 as "no capacity set" and the registration goes through. *)
Lemma registerForEvent_zero_capacity :
  let e := sample_event 1000 2000 (Some 0) 0 true None in
  let s := sample_store "e1" e in
  events s !! "e1"%string = Some e
  /\ open_for_registration 0 e
  /\ registrations s !! ("e1"%string, "amina"%string) = None
  /\ maxAttendees e = Some 0 /\ 0 <= currentAttendees e
  /\ exists s',
       EventService.registerForEvent 0 "e1" "amina" s = Ok s'
       /\ (currentAttendees <$> events s' !! "e1"%string) = Some 1
       /\ (reg_status <$> registrations s' !! ("e1"%string, "amina"%string))
          = Some "CONFIRMED"%string.
Proof.
  simpl. split; [reflexivity |]. split.
  { repeat split; simpl; try lia. intros d [=]. }
  split; [reflexivity |]. split; [reflexivity |]. split; [lia |].
  eexists. split; [reflexivity |]. vm_compute. split; reflexivity.
Qed.

(** ** C4: check-in with a token registers on the way *)

(** C4 (as amended).  Let the token validate, the event require registration,
    no registration be on file for (eventId, userId) and no check-in time be
    recorded for the pair.  Then [checkInWithToken] answers DeadlinePassed
    when a deadline is set and [now] is after it; otherwise, with [now]
    before the deadline or no deadline set, it answers CapacityExceeded on
    the capacity test of [registerForEvent], and else commits a CONFIRMED
    registration together with an increment of [currentAttendees] by one and
    then writes the check-in.  (A pair with a check-in time on file is
    answered AlreadyCheckedIn before any registration is attempted.) *)
Theorem checkInWithToken_auto_registers now eventId token userId s info e :
  QRCodeService.validateCheckinToken now eventId token s = Ok info ->
  events s !! eventId = Some e ->
  registrationRequired e = true ->
  registrations s !! (eventId, userId) = None ->
  attendances s !! (eventId, userId) ≫= checkInTime = None ->
  (forall d, registrationDeadline e = Some d -> d < now ->
     QRCodeService.checkInWithToken now eventId token userId s = Err DeadlinePassed)
  /\ ((forall d, registrationDeadline e = Some d -> now < d) ->
      at_capacity e = true ->
      QRCodeService.checkInWithToken now eventId token userId s = Err CapacityExceeded)
  /\ ((forall d, registrationDeadline e = Some d -> now < d) ->
      at_capacity e = false ->
      exists a s',
        QRCodeService.checkInWithToken now eventId token userId s = Ok (a, s')
        /\ registrations s'
           = <[(eventId, userId) := mkRegistration "CONFIRMED" now]> (registrations s)
        /\ events s' = <[eventId := bump 1 e]> (events s)
        /\ attendances s' = <[(eventId, userId) := a]> (attendances s)
        /\ checkInTime a = Some now /\ att_status a = CHECKED_IN).
Proof.
  intros Hvalid He Hreq Hreg Hatt.
  unfold QRCodeService.checkInWithToken, QRCodeService.auto_register,
    QRCodeService.process_checkin.
  rewrite Hvalid, He, Hatt, Hreq, Hreg. simpl.
  split; [| split].
  - intros d Hd Hlt. rewrite Hd.
    destruct (Z.ltb_spec d now); [done | lia].
  - intros Hopen Hcap.
    destruct (registrationDeadline e) as [d|] eqn:Hd.
    + specialize (Hopen d eq_refl).
      destruct (Z.ltb_spec d now); [lia |]. by rewrite Hcap.
    + by rewrite Hcap.
  - intros Hopen Hcap.
    assert (Hdl : match registrationDeadline e with
                  | Some d => d <? now | None => false end = false).
    { destruct (registrationDeadline e) as [d|]; [| done].
      specialize (Hopen d eq_refl). apply Z.ltb_ge. lia. }
    rewrite Hdl, Hcap. eexists _, _. split; [reflexivity |].
    repeat split.
    + simpl. by apply alter_bump_insert.
    + by destruct (attendances s !! (eventId, userId)).
    + by destruct (attendances s !! (eventId, userId)).
Qed.

(** C4 (witness): a first check-in by token on the running sample event,
    well before its registration deadline. *)
Lemma checkInWithToken_auto_registers_witness :
  exists a s',
    QRCodeService.checkInWithToken 20 "e1" demo_token "amina" deadline_store = Ok (a, s')
    /\ registrations s'
       = <[("e1"%string, "amina"%string) := mkRegistration "CONFIRMED" 20]>
           (registrations deadline_store)
    /\ events s'
       = <["e1"%string := bump 1 (running_event (Some 5) 0 true (Some 50))]>
           (events deadline_store)
    /\ attendances s' = <[("e1"%string, "amina"%string) := a]> (attendances deadline_store)
    /\ checkInTime a = Some 20 /\ att_status a = CHECKED_IN.
Proof.
  refine (proj2 (proj2 (checkInWithToken_auto_registers 20 "e1" demo_token "amina"
            deadline_store
            (mkTokenInfo "e1" "Friday Prayer" 0 100 true (Some 50) (Some 5) 0 true 86400010)
            (running_event (Some 5) 0 true (Some 50)) _ _ _ _ _)) _ _).
  - vm_compute. reflexivity.
  - vm_compute. reflexivity.
  - reflexivity.
  - vm_compute. reflexivity.
  - vm_compute. reflexivity.
  - intros d [= <-]. lia.
  - reflexivity.
Defined.

(** C4 (counterexample).  At the very millisecond of the deadline
    [registerForEvent] answers DeadlinePassed while [checkInWithToken]
    registers the member; and a member with a check-in on file and no
    registration is answered AlreadyCheckedIn, with no registration made. *)
Lemma checkInWithToken_not_as_register :
  (EventService.registerForEvent 50 "e1" "amina" upcoming_store = Err DeadlinePassed
   /\ is_ok (QRCodeService.validateCheckinToken 50 "e1" demo_token deadline_store) = true
   /\ is_ok (QRCodeService.checkInWithToken 50 "e1" demo_token "amina" deadline_store) = true
   /\ reg_status <$> registrations
         (post demo_platform demo_env 50 (CheckInWithToken "e1" demo_token "amina")
               deadline_store) !! ("e1"%string, "amina"%string)
      = Some "CONFIRMED"%string)
  /\ (is_ok (QRCodeService.validateCheckinToken 50 "e1" demo_token switched_store) = true
      /\ (registrationRequired <$> events switched_store !! "e1"%string) = Some true
      /\ registrations switched_store !! ("e1"%string, "amina"%string) = None
      /\ QRCodeService.checkInWithToken 50 "e1" demo_token "amina" switched_store
         = Err AlreadyCheckedIn).
Proof. vm_compute. repeat split. Qed.

(** ** C5: the attendance state machine *)













(** ** C6: check-in needs a confirmed registration *)

Lemma checkIn_needs_confirmed now eventId userId n s e :
  events s !! eventId = Some e -> registrationRequired e = true ->
  isActive e = true -> startDate e <= now <= endDate e ->
  match registrations s !! (eventId, userId) with
  | None => AttendanceService.checkIn now eventId userId n s = Err UserNotRegistered
  | Some r =>
      if String.eqb (reg_status r) "CONFIRMED"
      then True
      else AttendanceService.checkIn now eventId userId n s = Err RegistrationNotConfirmed
  end.
Proof.
  intros He Hreq Hact [Hs Hend]. unfold AttendanceService.checkIn.
  rewrite He, Hact, Hreq. simpl.
  destruct (Z.ltb_spec now (startDate e)); [lia |].
  destruct (Z.ltb_spec (endDate e) now); [lia |].
  destruct (registrations s !! (eventId, userId)) as [r|]; [| done].
  by destruct (String.eqb (reg_status r) "CONFIRMED").
Qed.

Lemma markAttendance_needs_confirmed now eventId userId s e :
  events s !! eventId = Some e -> registrationRequired e = true ->
  isActive e = true -> startDate e <= now <= endDate e ->
  match registrations s !! (eventId, userId) with
  | None => EventService.markAttendance now eventId userId s = Err UserNotRegistered
  | Some r =>
      if String.eqb (reg_status r) "CONFIRMED"
      then True
      else EventService.markAttendance now eventId userId s = Err RegistrationNotConfirmed
  end.
Proof.
  intros He Hreq Hact [Hs Hend]. unfold EventService.markAttendance.
  rewrite He, Hact, Hreq. simpl.
  destruct (Z.ltb_spec now (startDate e)); [lia |].
  destruct (Z.ltb_spec (endDate e) now); [lia |].
  destruct (registrations s !! (eventId, userId)) as [r|]; [| done].
  by destruct (String.eqb (reg_status r) "CONFIRMED").
Qed.

Lemma eventService_checkIn_needs_registration now eventId userId n s e :
  events s !! eventId = Some e -> registrationRequired e = true ->
  isActive e = true -> startDate e <= now <= endDate e ->
  registrations s !! (eventId, userId) = None ->
  EventService.checkIn now eventId userId n s = Err UserNotRegistered.
Proof.
  intros He Hreq Hact [Hs Hend] Hreg. unfold EventService.checkIn.
  rewrite He, Hact, Hreq, Hreg. simpl.
  destruct (Z.ltb_spec now (startDate e)); [lia |].
  destruct (Z.ltb_spec (endDate e) now); [lia | done].
Qed.



(** [EventService.checkIn], which no route and no service calls, differs: on
    a registration whose status is not CONFIRMED (a status that no writer of
    the table stores) it only looks for the row and checks the member in,
    where the two routed functions answer RegistrationNotConfirmed. *)
Example eventService_checkIn_skips_confirmation :
  AttendanceService.checkIn 10 "e1" "amina" None waitlisted_store
  = Err RegistrationNotConfirmed
  /\ EventService.markAttendance 10 "e1" "amina" waitlisted_store
     = Err RegistrationNotConfirmed
  /\ exists s',
       EventService.checkIn 10 "e1" "amina" None waitlisted_store = Ok s'
       /\ attendances s' !! ("e1"%string, "amina"%string)
          = Some (mkAttendance (Some 10) None CHECKED_IN None).
Proof.
  split; [vm_compute; reflexivity |].
  split; [vm_compute; reflexivity |].
  eexists. split; [reflexivity |]. vm_compute. reflexivity.
Qed.

(** ** Strings and tokens *)

Lemma append_nil (b : string) : EmptyString +:+ b = b.
Proof. reflexivity. Qed.

Lemma append_cons x (a b : string) : String x a +:+ b = String x (a +:+ b).
Proof. reflexivity. Qed.

Lemma append_assoc (a b c : string) : (a +:+ b) +:+ c = a +:+ (b +:+ c).
Proof.
  induction a as [| x a IH]; [done |]. by rewrite !append_cons, IH.
Qed.

Lemma append_inv_head (a b c : string) : a +:+ b = a +:+ c -> b = c.
Proof.
  induction a as [| x a IH]; [done |]. rewrite !append_cons. intros [= H]. auto.
Qed.

Lemma split_nonempty sep s : split sep s <> [].
Proof.
  destruct s as [| c r]; simpl; [done |].
  destruct (Ascii.eqb c sep); [done |]. by destruct (split sep r).
Qed.

Lemma split_colon_free a : colon_free a = true -> split colon a = [a].
Proof.
  induction a as [| c a IH]; simpl; [done |].
  intros [Hc Ha]%andb_true_iff. apply negb_true_iff in Hc.
  by rewrite Hc, (IH Ha).
Qed.

Lemma split_app_colon a b :
  colon_free a = true -> split colon (a +:+ String colon b) = a :: split colon b.
Proof.
  induction a as [| c a IH]; [done |]. rewrite append_cons. simpl.
  intros [Hc Ha]%andb_true_iff. apply negb_true_iff in Hc.
  by rewrite Hc, (IH Ha).
Qed.

Lemma split_app_colon_length a b :
  (2 <= length (split colon (a +:+ String colon b)))%nat.
Proof.
  induction a as [| c a IH].
  - rewrite append_nil. simpl.
    pose proof (split_nonempty colon b). destruct (split colon b); simpl; [done | lia].
  - rewrite append_cons. simpl. destruct (Ascii.eqb c colon); simpl; [lia |].
    destruct (split colon (a +:+ String colon b)); simpl in *; lia.
Qed.

Lemma colon_free_app_inj a b x y :
  colon_free a = true -> colon_free b = true ->
  a +:+ String colon x = b +:+ String colon y -> a = b /\ x = y.
Proof.
  revert b. induction a as [| c a IH]; intros [| d b];
    rewrite ?append_cons, ?append_nil; simpl.
  - by intros _ _ [= ->].
  - intros _ [Hd _]%andb_true_iff [= <- _]. done.
  - intros [Hc _]%andb_true_iff _ [= -> _]. done.
  - intros [_ Ha]%andb_true_iff [_ Hb]%andb_true_iff [= -> H].
    destruct (IH b Ha Hb H) as [-> ->]. done.
Qed.

Lemma colon_free_uint d : colon_free (NilEmpty.string_of_uint d) = true.
Proof. induction d; simpl; done. Qed.

Lemma colon_free_decimal n : colon_free (decimal n) = true.
Proof.
  unfold decimal. destruct (Z.to_int n); simpl; apply colon_free_uint.
Qed.

Lemma decimal_inj a b : decimal a = decimal b -> a = b.
Proof.
  unfold decimal. intros H.
  assert (Hi : Z.to_int a = Z.to_int b).
  { apply (f_equal NilEmpty.int_of_string) in H.
    rewrite !NilEmpty.isi in H. by injection H. }
  rewrite <- (DecimalZ.of_to a), <- (DecimalZ.of_to b). by rewrite Hi.
Qed.

(** A token is the literal prefix, the event id, the timestamp and whatever
    comes after the third colon. *)
Lemma token_shape eventId timestamp sig :
  QRCodeService.secureData eventId timestamp +:+ ":" +:+ sig
  = "event-checkin:" +:+ eventId +:+ ":" +:+ decimal timestamp +:+ ":" +:+ sig.
Proof.
  unfold QRCodeService.secureData.
  change ("event-checkin:" +:+ eventId +:+ ":" +:+ decimal timestamp)
    with ("event-checkin:" +:+ (eventId +:+ (":" +:+ decimal timestamp))).
  rewrite (append_assoc "event-checkin:"), (append_assoc eventId).
  by rewrite (append_assoc ":" (decimal timestamp)).
Qed.

Lemma token_parts eventId timestamp sig :
  colon_free eventId = true ->
  exists rest,
    split colon (QRCodeService.secureData eventId timestamp +:+ ":" +:+ sig)
    = "event-checkin"%string :: eventId :: rest
    /\ (2 <= length rest)%nat.
Proof.
  intros Hfree. rewrite token_shape.
  exists (split colon (decimal timestamp +:+ ":" +:+ sig)). split.
  - change ("event-checkin:" +:+ eventId +:+ ":" +:+ decimal timestamp +:+ ":" +:+ sig)
      with ("event-checkin" +:+ String colon
              (eventId +:+ String colon (decimal timestamp +:+ ":" +:+ sig))).
    rewrite split_app_colon by reflexivity. by rewrite split_app_colon.
  - apply split_app_colon_length.
Qed.

Lemma token_inj eventId t1 t2 sig1 sig2 :
  QRCodeService.secureData eventId t1 +:+ ":" +:+ sig1
  = QRCodeService.secureData eventId t2 +:+ ":" +:+ sig2 ->
  t1 = t2 /\ sig1 = sig2.
Proof.
  rewrite !token_shape. intros H.
  apply append_inv_head, append_inv_head in H.
  change (":" +:+ decimal t1 +:+ ":" +:+ sig1)
    with (String colon (decimal t1 +:+ String colon sig1)) in H.
  change (":" +:+ decimal t2 +:+ ":" +:+ sig2)
    with (String colon (decimal t2 +:+ String colon sig2)) in H.
  injection H as H.
  apply colon_free_app_inj in H as [Hd ->]; auto using colon_free_decimal.
  split; [by apply decimal_inj | done].
Qed.

(** ** The QR table *)

Lemma find_index_Some p l i q :
  QRCodeService.find_index p l = Some (i, q) -> l !! i = Some q /\ p q = true.
Proof.
  revert i. induction l as [| x l IH]; intros i; simpl; [done |].
  destruct (p x) eqn:Hp.
  - by intros [= <- <-].
  - destruct (QRCodeService.find_index p l) as [[j q']|]; [| done].
    intros [= <- <-]. by apply IH.
Qed.

Lemma findFirst_Some p l q :
  QRCodeService.findFirst p l = Some q -> q ∈ l /\ p q = true.
Proof.
  unfold QRCodeService.findFirst.
  destruct (QRCodeService.find_index p l) as [[i q']|] eqn:H; [| done].
  intros [= <-]. apply find_index_Some in H as [H ?].
  split; [| done]. by eapply list_elem_of_lookup_2.
Qed.

Lemma findFirst_None p l :
  (forall q, q ∈ l -> p q = false) -> QRCodeService.findFirst p l = None.
Proof.
  unfold QRCodeService.findFirst. induction l as [| x l IH]; intros H; simpl; [done |].
  rewrite (H x) by apply list_elem_of_here.
  assert (Hl : snd <$> QRCodeService.find_index p l = None).
  { apply IH. intros q Hq. apply H. by apply list_elem_of_further. }
  by destruct (QRCodeService.find_index p l) as [[j q']|].
Qed.

Lemma findFirst_found p l q :
  q ∈ l -> p q = true ->
  exists q', QRCodeService.findFirst p l = Some q' /\ q' ∈ l /\ p q' = true.
Proof.
  intros Hin Hp.
  destruct (QRCodeService.findFirst p l) as [q'|] eqn:H.
  - exists q'. split; [done |]. by apply findFirst_Some.
  - exfalso. unfold QRCodeService.findFirst in H.
    induction l as [| x l IH]; [by apply elem_of_nil in Hin |].
    simpl in H. destruct (p x) eqn:Hx; [done |].
    apply elem_of_cons in Hin as [-> | Hin]; [congruence |].
    apply IH; [done |].
    by destruct (QRCodeService.find_index p l) as [[j q']|].
Qed.

Lemma findFirst_app_last p l x :
  (forall q, q ∈ l -> p q = false) ->
  QRCodeService.findFirst p (l ++ [x]) = if p x then Some x else None.
Proof.
  unfold QRCodeService.findFirst. induction l as [| y l IH]; intros H; simpl.
  - by destruct (p x).
  - rewrite (H y) by apply list_elem_of_here.
    assert (Hl : snd <$> QRCodeService.find_index p (l ++ [x])
                 = if p x then Some x else None).
    { apply IH. intros q Hq. apply H. by apply list_elem_of_further. }
    destruct (QRCodeService.find_index p (l ++ [x])) as [[j q']|]; simpl in *; done.
Qed.

Lemma deactivated_no_match eventId data l q :
  q ∈ QRCodeService.deactivate_where (QRCodeService.active_for eventId) l ->
  QRCodeService.matches eventId data q = false.
Proof.
  unfold QRCodeService.deactivate_where. intros Hq.
  apply list_elem_of_fmap in Hq as (q0 & -> & _).
  unfold QRCodeService.matches, QRCodeService.active_for.
  destruct (String.eqb (qr_eventId q0) eventId) eqn:He; simpl.
  - destruct (qr_isActive q0) eqn:Ha; simpl.
    + rewrite He. simpl. apply andb_false_r.
    + rewrite He, Ha. apply andb_false_r.
  - by rewrite He.
Qed.

(** What a successful issuance leaves behind. *)
Lemma generateEventQR_Ok P env now eventId hours s g s' :
  QRCodeService.generateEventQR P env now eventId hours s = Ok (g, s') ->
  exists e,
    events s !! eventId = Some e /\ isActive e = true
    /\ g_qrData g = QRCodeService.secureToken P env eventId now
    /\ g_expiresAt g = now + hours * 60 * 60 * 1000
    /\ events s' = events s
    /\ qrCodes s'
       = QRCodeService.deactivate_where (QRCodeService.active_for eventId) (qrCodes s)
         ++ [mkQRCode eventId (QRCodeService.secureToken P env eventId now) "secure"
                      (now + hours * 60 * 60 * 1000) true now].
Proof.
  unfold QRCodeService.generateEventQR.
  destruct (events s !! eventId) as [e|]; [| done].
  destruct (isActive e) eqn:Hact; simpl; [| done].
  intros [= <- <-]. exists e. done.
Qed.

Lemma active_for_deactivate eventId q :
  QRCodeService.active_for eventId (QRCodeService.deactivate q) = false.
Proof. unfold QRCodeService.active_for. simpl. apply andb_false_r. Qed.

Lemma active_rows_deactivate_where eventId p l :
  (length (active_rows eventId (QRCodeService.deactivate_where p l))
   <= length (active_rows eventId l))%nat.
Proof.
  induction l as [| q l IH]; simpl; [done |].
  rewrite !filter_cons.
  destruct (p q); repeat case_decide; simpl; try lia.
  by rewrite active_for_deactivate in *.
Qed.

Lemma active_rows_alter eventId i l :
  (length (active_rows eventId (alter QRCodeService.deactivate i l))
   <= length (active_rows eventId l))%nat.
Proof.
  revert i. induction l as [| q l IH]; intros [| i]; simpl; try done.
  - rewrite !filter_cons. repeat case_decide; simpl; try lia.
    by rewrite active_for_deactivate in *.
  - rewrite !filter_cons. specialize (IH i). unfold alter in IH.
    repeat case_decide; simpl; lia.
Qed.

Lemma active_rows_own_deactivated eventId l :
  active_rows eventId (QRCodeService.deactivate_where (QRCodeService.active_for eventId) l)
  = [].
Proof.
  induction l as [| q l IH]; simpl; [done |].
  rewrite filter_cons.
  destruct (QRCodeService.active_for eventId q) eqn:Hq.
  - rewrite active_for_deactivate. by case_decide.
  - rewrite Hq. by case_decide.
Qed.

Lemma one_active_step P env now op s :
  one_active s -> one_active (post P env now op s).
Proof.
  intros Hone.
  destruct op;
    try (unfold_services; repeat case_match; simplify_eq/=; exact Hone).
  - (* GenerateQR *)
    unfold post, run, reply.
    destruct (QRCodeService.generateEventQR P env now eventId expirationHours s)
      as [[g s']|] eqn:Hgen; [| exact Hone].
    apply generateEventQR_Ok in Hgen as (e & _ & _ & _ & _ & _ & Hrows).
    intros eventId'. rewrite Hrows, filter_app, length_app.
    destruct (decide (eventId' = eventId)) as [-> | Hne].
    + rewrite active_rows_own_deactivated. simpl.
      rewrite filter_cons, filter_nil. case_decide; simpl; lia.
    + rewrite filter_cons, filter_nil.
      assert (QRCodeService.active_for eventId'
                (mkQRCode eventId (QRCodeService.secureToken P env eventId now) "secure"
                          (now + expirationHours * 60 * 60 * 1000) true now) = false)
        as Hrow.
      { unfold QRCodeService.active_for. simpl.
        destruct (String.eqb_spec eventId eventId'); [congruence | done]. }
      case_decide; [congruence |]. simpl.
      pose proof (active_rows_deactivate_where eventId'
                    (QRCodeService.active_for eventId) (qrCodes s)).
      specialize (Hone eventId'). lia.
  - (* RevokeQR *)
    unfold_services. repeat case_match; simplify_eq/=; try exact Hone.
    intros eventId'. simpl.
    pose proof (active_rows_alter eventId' n (qrCodes s)).
    specialize (Hone eventId'). lia.
  - (* CleanupQR *)
    unfold_services. intros eventId'. simpl.
    pose proof (active_rows_deactivate_where eventId'
                  (fun q => (expiresAt q <? now) && qr_isActive q) (qrCodes s)).
    specialize (Hone eventId'). lia.
Qed.

(** ** C7: one active QR code per event *)

Lemma matches_new_row eventId token data ty exp born :
  QRCodeService.matches eventId token (mkQRCode eventId data ty exp true born)
  = String.eqb data token.
Proof.
  unfold QRCodeService.matches. simpl.
  by rewrite String.eqb_refl, andb_true_r.
Qed.

Lemma validate_other_token P env now now' eventId hours s g s' token :
  QRCodeService.generateEventQR P env now eventId hours s = Ok (g, s') ->
  token <> g_qrData g ->
  is_ok (QRCodeService.validateCheckinToken now' eventId token s') = false
  /\ (accepted_shape 4 eventId token ->
      QRCodeService.validateCheckinToken now' eventId token s' = Err TokenNotFound).
Proof.
  intros (e & _ & _ & Hg & _ & _ & Hrows)%generateEventQR_Ok Hne.
  assert (Hfind : QRCodeService.findFirst (QRCodeService.matches eventId token)
                    (qrCodes s') = None).
  { rewrite Hrows, findFirst_app_last by (intros q; apply deactivated_no_match).
    rewrite matches_new_row.
    destruct (String.eqb_spec (QRCodeService.secureToken P env eventId now) token)
      as [Heq |]; [congruence | done]. }
  unfold QRCodeService.validateCheckinToken. rewrite Hfind. split.
  - repeat case_match; done.
  - intros (Hlen & H0 & H1).
    destruct (Nat.ltb_spec (length (split colon token)) 4); [lia |].
    rewrite H0, H1. simpl. by rewrite !bool_decide_eq_true_2.
Qed.

Lemma issued_token_shape P env eventId now :
  colon_free eventId = true ->
  accepted_shape 4 eventId (QRCodeService.secureToken P env eventId now).
Proof.
  intros Hfree. unfold accepted_shape, QRCodeService.secureToken.
  destruct (token_parts eventId now (QRCodeService.signature P env eventId now) Hfree)
    as (rest & -> & Hrest).
  simpl. repeat split; lia.
Qed.


(** Run without interruption, the four awaits of an issuance are
    [generateEventQR]. *)
Lemma staged_generateEventQR P env now eventId hours s :
  run_issues P env [(now, 0%nat); (now, 0%nat); (now, 0%nat); (now, 0%nat)]
    [AwaitEventRow eventId hours] s
  = match QRCodeService.generateEventQR P env now eventId hours s with
    | Ok (g, s') => ([Issued (Ok g)], s')
    | Err e => ([Issued (Err e)], s)
    end.
Proof.
  unfold QRCodeService.generateEventQR. simpl.
  destruct (events s !! eventId) as [e|]; simpl; [| done].
  by destruct (isActive e).
Qed.




(** Two issuances within one millisecond carry the same token: in this model
    of the table, which puts no unique index on [qrData], the token of the
    first validates after the second. *)
Example same_millisecond_issuances :
  is_ok (QRCodeService.validateCheckinToken 10 "e1" demo_token same_millisecond_store)
  = true.
Proof. vm_compute. reflexivity. Qed.

(** ** C8: issue, then validate *)

Lemma validate_issued P env now now' eventId hours s g s' e :
  colon_free eventId = true ->
  QRCodeService.generateEventQR P env now eventId hours s = Ok (g, s') ->
  events s !! eventId = Some e ->
  QRCodeService.validateCheckinToken now' eventId (g_qrData g) s'
  = if g_expiresAt g <? now' then Err TokenExpired
    else if now' <? startDate e then Err EventNotStarted
    else if endDate e <? now' then Err EventEnded
    else Ok (mkTokenInfo eventId (title e) (startDate e) (endDate e)
               (registrationRequired e) (registrationDeadline e)
               (maxAttendees e) (currentAttendees e) true (g_expiresAt g)).
Proof.
  intros Hfree Hgen He.
  pose proof Hgen as (e' & He' & Hact & Hg & Hexp & Hev & Hrows)%generateEventQR_Ok.
  assert (e' = e) as -> by congruence.
  destruct (issued_token_shape P env eventId now Hfree) as (Hlen & H0 & H1).
  unfold QRCodeService.validateCheckinToken. rewrite Hg.
  destruct (Nat.ltb_spec (length (split colon (QRCodeService.secureToken P env eventId now))) 4);
    [lia |].
  rewrite H0, H1. simpl. rewrite !bool_decide_eq_true_2 by done. simpl.
  rewrite Hrows, findFirst_app_last by (intros q; apply deactivated_no_match).
  rewrite matches_new_row, String.eqb_refl. simpl.
  rewrite Hev, He, Hact, Hexp. simpl. done.
Qed.

(** C8 (as amended).  After a successful [IssueToken] for an event,
    [ValidateToken] with the same event id and the returned token succeeds at
    every time that is not after the token's expiry and lies within the
    event's [startDate, endDate] (for an immediate validation: a non-negative
    lifetime and an event that is running; the event id, a generated key,
    holding no colon); and [ValidateToken] on that token with its signature
    replaced by any other string, so also with one signature byte altered,
    fails at every time. *)
Theorem issue_validate_roundtrip P env now now' eventId hours s g s' e :
  QRCodeService.generateEventQR P env now eventId hours s = Ok (g, s') ->
  events s !! eventId = Some e ->
  (colon_free eventId = true ->
   now' <= g_expiresAt g -> startDate e <= now' <= endDate e ->
   is_ok (QRCodeService.validateCheckinToken now' eventId (g_qrData g) s') = true)
  /\ (forall sig, sig <> QRCodeService.signature P env eventId now ->
      is_ok (QRCodeService.validateCheckinToken now' eventId
               (QRCodeService.secureData eventId now +:+ ":" +:+ sig) s') = false).
Proof.
  intros Hgen He. split.
  - intros Hfree Hexp [Hs Hend].
    rewrite (validate_issued _ _ _ _ _ _ _ _ _ _ Hfree Hgen He).
    destruct (Z.ltb_spec (g_expiresAt g) now'); [lia |].
    destruct (Z.ltb_spec now' (startDate e)); [lia |].
    destruct (Z.ltb_spec (endDate e) now'); [lia | done].
  - intros sig Hsig. eapply validate_other_token; [exact Hgen |].
    pose proof Hgen as (e' & _ & _ & -> & _)%generateEventQR_Ok.
    unfold QRCodeService.secureToken. intros [_ ?]%token_inj. done.
Qed.

(** C8 (witness): the code issued at 10 for the running sample event
    validates at once, and not with the last signature character altered. *)
Lemma issue_validate_roundtrip_witness :
  is_ok (QRCodeService.validateCheckinToken 10 "e1" demo_token deadline_store) = true
  /\ is_ok (QRCodeService.validateCheckinToken 10 "e1"
              (QRCodeService.secureData "e1" 10 +:+ ":"
               +:+ "5e884898da28047151d0e56f8dc62928") deadline_store) = false.
Proof.
  pose proof (issue_validate_roundtrip demo_platform demo_env 10 10 "e1" 24
                (sample_store "e1" (running_event (Some 5) 0 true (Some 50)))
                (mkGenerated
                   (render (FRONTEND_URL demo_env) +:+ "/events/e1/checkin?token="
                    +:+ demo_token)
                   demo_token
                   (render (FRONTEND_URL demo_env) +:+ "/events/e1/checkin?token="
                    +:+ demo_token)
                   86400010 "e1")
                deadline_store
                (running_event (Some 5) 0 true (Some 50))
                eq_refl eq_refl) as [Hgood Hbad].
  split.
  - apply Hgood; [reflexivity | simpl; lia | simpl; lia].
  - apply Hbad. vm_compute. discriminate.
Defined.

(** C8 (counterexample).  A code issued for an event that has not started
    does not validate: issuance only asks for an active event, validation
    also for a running one. *)
Lemma issue_validate_before_start :
  is_ok (QRCodeService.generateEventQR demo_platform demo_env 10 "e1" 24 upcoming_store)
  = true
  /\ QRCodeService.validateCheckinToken 10 "e1" demo_token early_qr_store
     = Err EventNotStarted.
Proof. vm_compute. split; reflexivity. Qed.

(** ** C9: what the token consumers check *)






(** ** C10: the signature is never verified *)

Lemma validate_stored now eventId token s e :
  accepted_shape 4 eventId token -> stored_active eventId token s ->
  (forall q, q ∈ qrCodes s -> QRCodeService.matches eventId token q = true ->
             now <= expiresAt q) ->
  events s !! eventId = Some e -> isActive e = true ->
  startDate e <= now <= endDate e ->
  is_ok (QRCodeService.validateCheckinToken now eventId token s) = true.
Proof.
  intros (Hlen & H0 & H1) (q & Hin & Hq & Hd & Ha) Hexp He Hact [Hs Hend].
  unfold QRCodeService.validateCheckinToken.
  destruct (Nat.ltb_spec (length (split colon token)) 4); [lia |].
  rewrite (bool_decide_eq_true_2 _ H0), (bool_decide_eq_true_2 _ H1). simpl.
  destruct (findFirst_found (QRCodeService.matches eventId token) (qrCodes s) q Hin)
    as (q' & -> & Hin' & Hm').
  { unfold QRCodeService.matches. rewrite Hq, Hd, Ha, !String.eqb_refl. done. }
  specialize (Hexp q' Hin' Hm').
  destruct (Z.ltb_spec (expiresAt q') now); [lia |].
  rewrite He, Hact. simpl.
  destruct (Z.ltb_spec now (startDate e)); [lia |].
  destruct (Z.ltb_spec (endDate e) now); [lia | done].
Qed.

(** C10 (as amended).  The outcome of a token-consuming request
    ([ValidateToken], check-in with token, QR check-in) is the same under any
    two server secrets, and indeed under any two HMAC implementations: it is
    a function of the store, the time and the request.  And a string of the
    token format validates, whatever its signature part and so also when
    that is not the HMAC of its payload, when it is stored as the [qrData]
    of an active row of the event, no such row has expired, and the event is
    active and running (the event id, a generated key, holding no colon). *)
Theorem validation_ignores_signature :
  (forall P P' env env' now op s,
      consumes_token op = true -> run P env now op s = run P' env' now op s)
  /\ (forall now eventId timestamp sig s e,
      colon_free eventId = true ->
      stored_active eventId (QRCodeService.secureData eventId timestamp +:+ ":" +:+ sig) s ->
      (forall q, q ∈ qrCodes s ->
         QRCodeService.matches eventId
           (QRCodeService.secureData eventId timestamp +:+ ":" +:+ sig) q = true ->
         now <= expiresAt q) ->
      events s !! eventId = Some e -> isActive e = true ->
      startDate e <= now <= endDate e ->
      is_ok (QRCodeService.validateCheckinToken now eventId
               (QRCodeService.secureData eventId timestamp +:+ ":" +:+ sig) s) = true).
Proof.
  split.
  - intros P P' env env' now op s Hop. by destruct op.
  - intros now eventId timestamp sig s e Hfree Hstored Hexp He Hact Hwin.
    eapply validate_stored; eauto.
    unfold accepted_shape.
    destruct (token_parts eventId timestamp sig Hfree) as (rest & -> & Hrest).
    simpl. repeat split; lia.
Qed.

(** C10 (witness): a token signed "forged", which is not the HMAC of its
    payload, stored as the active code of the running sample event,
    validates; and the token issued under one secret validates on a server
    that runs with another. *)
Lemma validation_ignores_signature_witness :
  "forged"%string <> QRCodeService.signature demo_platform demo_env "e1" 10
  /\ is_ok (QRCodeService.validateCheckinToken 20 "e1" forged_token
              (stored_token_store forged_token)) = true
  /\ run demo_platform demo_env 20 (ValidateToken "e1" demo_token) deadline_store
     = run demo_platform other_env 20 (ValidateToken "e1" demo_token) deadline_store.
Proof.
  destruct validation_ignores_signature as [Hsame Hforged].
  split; [vm_compute; discriminate | split].
  - refine (Hforged 20 "e1"%string 10 "forged"%string
              (stored_token_store forged_token)
              (running_event (Some 5) 0 false None) eq_refl _ _ eq_refl eq_refl _).
    + eexists. split; [apply list_elem_of_here |]. repeat split.
    + intros q Hq _. apply list_elem_of_singleton in Hq as ->. simpl. lia.
    + simpl. lia.
  - by apply Hsame.
Defined.

(** C10 (counterexample).  A string stored as the [qrData] of an active row is
    not accepted for that alone: the code issued for the sample event
    before the event has started is refused with EventNotStarted, and the
    code issued for one hour is refused with TokenExpired after that hour,
    each while its row is active, and by the check-in with the token as
    well. *)
Lemma stored_active_token_refused :
  (stored_active "e1" demo_token early_qr_store
   /\ QRCodeService.validateCheckinToken 10 "e1" demo_token early_qr_store
      = Err EventNotStarted
   /\ QRCodeService.checkInWithToken 10 "e1" demo_token "amina" early_qr_store
      = Err EventNotStarted)
  /\ (stored_active "e1" (QRCodeService.secureToken demo_platform demo_env "e1" 0)
        hour_code_store
      /\ QRCodeService.validateCheckinToken 3660000 "e1"
           (QRCodeService.secureToken demo_platform demo_env "e1" 0) hour_code_store
         = Err TokenExpired
      /\ QRCodeService.checkInWithToken 3660000 "e1"
           (QRCodeService.secureToken demo_platform demo_env "e1" 0) "amina"
           hour_code_store
         = Err TokenExpired).
Proof.
  split; (split; [| split; vm_compute; reflexivity]).
  - exists (mkQRCode "e1" demo_token "secure" 86400010 true 10).
    split; [| repeat split].
    assert (qrCodes early_qr_store = [mkQRCode "e1" demo_token "secure" 86400010 true 10])
      as -> by (vm_compute; reflexivity).
    apply list_elem_of_here.
  - exists (mkQRCode "e1" (QRCodeService.secureToken demo_platform demo_env "e1" 0)
              "secure" 3600000 true 0).
    split; [| repeat split].
    assert (qrCodes hour_code_store
            = [mkQRCode "e1" (QRCodeService.secureToken demo_platform demo_env "e1" 0)
                 "secure" 3600000 true 0])
      as -> by (vm_compute; reflexivity).
    apply list_elem_of_here.
Qed.

(** * Further properties of the services *)

(** ** Cancellation *)

(** X1.  [cancelRegistration] answers RegistrationNotFound when the pair has
    no registration (also when the event does not exist), then EventNotFound,
    then EventAlreadyStarted when [startDate <= now]; otherwise it deletes
    the registration, lowers [currentAttendees] of the event by exactly one
    and changes nothing else. *)
Theorem cancelRegistration_outcome now eventId userId s :
  cancel_outcome now eventId userId s
    (EventService.cancelRegistration now eventId userId s).
Proof.
  unfold EventService.cancelRegistration.
  destruct (registrations s !! (eventId, userId)) as [r|] eqn:Hr; [| by constructor].
  destruct (events s !! eventId) as [e|] eqn:He; [| by eapply can_no_event].
  destruct (Z.leb_spec (startDate e) now); [by eapply can_started |].
  eapply can_success; eauto. simpl. by apply alter_bump_insert.
Qed.

Lemma bump_back e : bump (-1) (bump 1 e) = e.
Proof. destruct e. unfold bump. simpl. f_equal. lia. Qed.

(** X2.  A cancellation served after a successful registration of the same
    pair, before the event starts, gives back the store as it was before the
    registration: same counter, same registrations, everything else
    untouched. *)
Theorem register_then_cancel now now' eventId userId s s1 e :
  EventService.registerForEvent now eventId userId s = Ok s1 ->
  events s !! eventId = Some e -> now' < startDate e ->
  EventService.cancelRegistration now' eventId userId s1 = Ok s.
Proof.
  intros Hreg He Hnow.
  assert (Hs1 : s1 = commit_registration now eventId userId s
                /\ registrations s !! (eventId, userId) = None).
  { unfold EventService.registerForEvent in Hreg. rewrite He in Hreg.
    repeat case_match; simplify_eq/=; done. }
  destruct Hs1 as [-> Hfree].
  unfold EventService.cancelRegistration, commit_registration. simpl.
  rewrite lookup_insert_eq, lookup_alter_eq, He. simpl.
  destruct (Z.leb_spec (startDate e) now'); [lia |].
  f_equal. destruct s as [us ev rg at_ qr]. unfold set_events, set_registrations.
  simpl in *. f_equal.
  - apply map_eq. intros j. destruct (decide (eventId = j)) as [<- | Hne].
    + by rewrite !lookup_alter_eq, He; simpl; rewrite bump_back.
    + by rewrite !lookup_alter_ne.
  - by rewrite delete_insert_eq, delete_id.
Qed.

(** X2 (witness): a member registers for the fresh sample event at 1 and
    cancels at 2. *)
Lemma register_then_cancel_witness :
  EventService.cancelRegistration 2 "e1" "amina"
    (post demo_platform demo_env 1 (Register "e1" "amina") (fresh_store (Some 5)))
  = Ok (fresh_store (Some 5)).
Proof.
  refine (register_then_cancel 1 2 "e1" "amina" (fresh_store (Some 5)) _
            (sample_event 1000 2000 (Some 5) 0 true None) _ _ _).
  - reflexivity.
  - reflexivity.
  - simpl. lia.
Defined.

(** ** The counter and the registrations *)













(** ** Deleting and updating events *)

(** X5.  An event can be deleted exactly when it exists, has not started and
    the caller would be allowed to update it (with a body that the store
    accepts: one that names no creator who is not a user): a started event
    is deleted by no one, whatever the role, and the started test comes
    before the permission test. *)
Theorem deleteEvent_when now id uid role s d :
  (forall creator, u_createdById d = Some creator -> is_Some (users s !! creator)) ->
  (EventService.deleteEvent now id uid role s = Ok tt
   <-> (exists e, events s !! id = Some e /\ now < startDate e)
       /\ is_ok (EventService.updateEvent id d uid role s) = true)
  /\ (forall e, events s !! id = Some e -> startDate e <= now ->
        EventService.deleteEvent now id uid role s = Err EventAlreadyStarted).
Proof.
  intros Hcreator.
  assert (match u_createdById d with
          | Some creator => negb (bool_decide (is_Some (users s !! creator)))
          | None => false
          end = false) as Hfk.
  { destruct (u_createdById d) as [creator|]; [| done].
    by rewrite bool_decide_eq_true_2 by auto. }
  unfold EventService.deleteEvent, EventService.updateEvent. rewrite Hfk. split.
  - destruct (events s !! id) as [e|] eqn:He.
    + destruct (Z.leb_spec (startDate e) now).
      * split; [done |]. intros [(e' & [= <-] & Hlt) _]. lia.
      * split.
        -- intros Hdel. split; [by eauto |]. repeat case_match; simplify_eq/=; done.
        -- intros [_ Hupd]. repeat case_match; simplify_eq/=; done.
    + split; [done |]. by intros [(e & [=] & _) _].
  - intros e -> Hle. by destruct (Z.leb_spec (startDate e) now); [| lia].
Qed.

(** X5 (witness): at 1000, when the upcoming sample event starts, not even
    the admin may delete it. *)
Lemma deleteEvent_when_witness :
  EventService.deleteEvent 1000 "e1" "admin" ADMIN upcoming_store = Err EventAlreadyStarted.
Proof.
  refine (proj2 (deleteEvent_when 1000 "e1" "admin" ADMIN upcoming_store (set_max 1) _)
            (sample_event 1000 2000 (Some 5) 0 true (Some 50)) _ _).
  - intros creator Hc. discriminate Hc.
  - reflexivity.
  - simpl. lia.
Defined.

(** ** The attendance endpoints *)

(** X6.  The duplicated attendance endpoints agree: [markAttendance] fails
    and writes exactly as [AttendanceService.checkIn] without notes, and
    answers with the status and the check-in time of the row that
    [checkIn] answers with (and not with its notes or check-out time);
    [EventService.checkOut] fails and writes exactly as
    [AttendanceService.checkOut]; and [EventService.checkIn] differs from
    [AttendanceService.checkIn] only on a registration that is not CONFIRMED
    and on empty notes over an existing row. *)
Theorem attendance_endpoints_agree :
  (forall now eventId userId s,
      EventService.markAttendance now eventId userId s
      = match AttendanceService.checkIn now eventId userId None s with
        | Ok (a, s') => Ok (marked eventId userId a, s')
        | Err e => Err e
        end)
  /\ (forall now eventId userId n s,
      EventService.checkOut now eventId userId n s
      = match AttendanceService.checkOut now eventId userId n s with
        | Ok (_, s') => Ok s'
        | Err e => Err e
        end)
  /\ (forall now eventId userId n s,
      n <> Some EmptyString ->
      (forall r, registrations s !! (eventId, userId) = Some r ->
                 reg_status r = "CONFIRMED"%string) ->
      EventService.checkIn now eventId userId n s
      = match AttendanceService.checkIn now eventId userId n s with
        | Ok (_, s') => Ok s'
        | Err e => Err e
        end).
Proof.
  split; [| split].
  - intros. unfold EventService.markAttendance, AttendanceService.checkIn.
    repeat case_match; simplify_eq/=; done.
  - intros. unfold EventService.checkOut, AttendanceService.checkOut.
    repeat case_match; simplify_eq/=; done.
  - intros now eventId userId n s Hn Hconf.
    unfold EventService.checkIn, AttendanceService.checkIn.
    destruct (events s !! eventId) as [e|]; [| done].
    destruct (isActive e); simpl; [| done].
    destruct (now <? startDate e); [done |].
    destruct (endDate e <? now); [done |].
    destruct (registrationRequired e); simpl.
    + destruct (registrations s !! (eventId, userId)) as [r|] eqn:Hr; simpl; [| done].
      rewrite (Hconf r eq_refl). simpl.
      destruct (attendances s !! (eventId, userId)) as [a|]; [| done].
      destruct (checkInTime a); simpl; [done |].
      destruct n as [[| c n] |]; simpl; done.
    + destruct (attendances s !! (eventId, userId)) as [a|]; [| done].
      destruct (checkInTime a); simpl; [done |].
      destruct n as [[| c n] |]; simpl; done.
Qed.

(** X6 (witness): a second check-in through [EventService.checkIn], with
    notes, on the checked-in sample member. *)
Lemma attendance_endpoints_agree_witness :
  EventService.checkIn 15 "e1" "amina" (Some "late"%string) checked_in_store
  = Err AlreadyCheckedIn.
Proof.
  rewrite (proj2 (proj2 attendance_endpoints_agree) 15 "e1"%string "amina"%string
             (Some "late"%string) checked_in_store).
  - reflexivity.
  - discriminate.
  - intros r Hr. vm_compute in Hr. by injection Hr as <-.
Defined.

Lemma auto_register_registered now e eventId userId s s1 :
  QRCodeService.auto_register now e eventId userId s = Ok s1 ->
  attendances s1 = attendances s
  /\ (registrationRequired e = true -> is_Some (registrations s1 !! (eventId, userId))).
Proof.
  unfold QRCodeService.auto_register.
  repeat case_match; intros [= <-]; (split; [done |]); intros; try done; eauto.
  all: rewrite registrations_commit_registration, lookup_insert_eq; eauto.
Qed.

(** X7.  Every successful check-in, by whichever of the five paths
    ([AttendanceService.checkIn], [EventService.checkIn], [markAttendance],
    check-in with token, QR check-in), is served while the event is active
    and [startDate <= now <= endDate], for a pair with no check-in time on
    file; it leaves the pair with [checkInTime = now] and status CHECKED_IN,
    and on an event that requires registration it leaves the member
    registered. *)
Theorem check_in_postcondition P env now op s eventId userId r s' :
  check_in_target op = Some (eventId, userId) ->
  run P env now op s = Ok (r, s') ->
  exists e a,
    events s !! eventId = Some e /\ isActive e = true
    /\ startDate e <= now <= endDate e
    /\ attendances s !! (eventId, userId) ≫= checkInTime = None
    /\ attendances s' !! (eventId, userId) = Some a
    /\ checkInTime a = Some now /\ att_status a = CHECKED_IN
    /\ (registrationRequired e = true ->
        is_Some (registrations s' !! (eventId, userId))).
Proof.
  intros Htarget Hrun.
  destruct op; simpl in Htarget; simplify_eq.
  - (* CheckIn *)
    unfold run, reply, AttendanceService.checkIn in Hrun.
    repeat case_match; simplify_eq/=; window_facts.
    all: eexists _, _; rewrite lookup_insert_eq;
      repeat split; try done; try lia; eauto.
    all: try (by match goal with H : attendances _ !! _ = _ |- _ => rewrite H end).
    all: intros; congruence.
  - (* EventCheckIn *)
    unfold run, silent, EventService.checkIn in Hrun.
    repeat case_match; simplify_eq/=; window_facts.
    all: eexists _, _; rewrite lookup_insert_eq;
      repeat split; try done; try lia; eauto.
    all: try (by match goal with H : attendances _ !! _ = _ |- _ => rewrite H end).
    all: intros Hreq;
      match goal with Hor : _ \/ _ |- _ => destruct Hor as [Hno | Hyes] end;
      [congruence | by apply negb_false_iff, bool_decide_eq_true in Hyes].
  - (* MarkAttendance *)
    unfold run, reply, EventService.markAttendance in Hrun.
    repeat case_match; simplify_eq/=; window_facts.
    all: eexists _, _; rewrite lookup_insert_eq;
      repeat split; try done; try lia; eauto.
    all: try (by match goal with H : attendances _ !! _ = _ |- _ => rewrite H end).
    all: intros; congruence.
  - (* CheckInQR *)
    unfold run, reply, checkInQR, QRCodeService.validateAndCheckIn,
      QRCodeService.process_checkin in Hrun.
    repeat case_match; simplify_eq/=; window_facts.
    all: match goal with
         | H : QRCodeService.auto_register _ _ _ _ _ = Ok _ |- _ =>
             apply auto_register_registered in H as [Hatt Hreg]
         end.
    all: eexists _, _; rewrite lookup_insert_eq;
      repeat split; try done; try lia; eauto.
  - (* CheckInWithToken *)
    unfold run, reply, QRCodeService.checkInWithToken,
      QRCodeService.process_checkin in Hrun.
    destruct (QRCodeService.validateCheckinToken now eventId token s) as [info|] eqn:Hv;
      [| done].
    unfold QRCodeService.validateCheckinToken in Hv.
    repeat case_match; simplify_eq/=; window_facts.
    all: match goal with
         | H : QRCodeService.auto_register _ _ _ _ _ = Ok _ |- _ =>
             apply auto_register_registered in H as [Hatt Hreg]
         end.
    all: eexists _, _; rewrite lookup_insert_eq;
      repeat split; try done; try lia; eauto.
Qed.

(** X7 (witness): the registered sample member checks in at 10 through the
    staff endpoint. *)
Lemma check_in_postcondition_witness :
  exists e a,
    events registered_store !! "e1"%string = Some e /\ isActive e = true
    /\ startDate e <= 10 <= endDate e
    /\ attendances registered_store !! ("e1"%string, "amina"%string) ≫= checkInTime = None
    /\ attendances checked_in_store !! ("e1"%string, "amina"%string) = Some a
    /\ checkInTime a = Some 10 /\ att_status a = CHECKED_IN
    /\ (registrationRequired e = true ->
        is_Some (registrations checked_in_store !! ("e1"%string, "amina"%string))).
Proof.
  refine (check_in_postcondition demo_platform demo_env 10 (CheckIn "e1" "amina" None)
            registered_store "e1" "amina"
            (RAttendance (mkAttendance (Some 10) None CHECKED_IN None))
            checked_in_store _ _).
  - reflexivity.
  - vm_compute. reflexivity.
Defined.

(** X8.  Check-in, then check-out: a check-out served after a successful
    staff check-in of the pair succeeds at any later or earlier time and in
    whatever state the event then is (the check-out reads no event); the row
    then holds the check-in time, the check-out time, status CHECKED_OUT,
    and the check-out notes when they are not empty, else the notes the row
    had after the check-in. *)
Theorem check_in_then_check_out now now' eventId userId n n' s a s1 :
  AttendanceService.checkIn now eventId userId n s = Ok (a, s1) ->
  checkOutTime a = None ->
  forall s2, attendances s2 = attendances s1 ->
  exists a' s3,
    AttendanceService.checkOut now' eventId userId n' s2 = Ok (a', s3)
    /\ a' = mkAttendance (Some now) (Some now') CHECKED_OUT (or_string n' (notes a))
    /\ attendances s3 = <[(eventId, userId) := a']> (attendances s1)
    /\ attendance_state s3 eventId userId = StCheckedOut.
Proof.
  intros Hin Hout s2 Hs2.
  assert (Hrow : attendances s1 !! (eventId, userId) = Some a /\ checkInTime a = Some now).
  { unfold AttendanceService.checkIn in Hin.
    repeat case_match; simplify_eq/=; by rewrite lookup_insert_eq. }
  destruct Hrow as [Hrow Ht].
  unfold AttendanceService.checkOut, attendance_state. rewrite Hs2, Hrow, Ht, Hout. simpl.
  eexists _, _. split; [reflexivity |]. unfold mark_checked_out. rewrite Ht.
  split; [done |]. simpl. rewrite Hs2. split; [done |].
  by rewrite lookup_insert_eq.
Qed.

(** X8 (witness): the sample member, checked in at 10, checks out at 200,
    after the end of the event. *)
Lemma check_in_then_check_out_witness :
  exists a' s3,
    AttendanceService.checkOut 200 "e1" "amina" (Some "left early"%string) checked_in_store
    = Ok (a', s3)
    /\ a' = mkAttendance (Some 10) (Some 200) CHECKED_OUT (Some "left early"%string)
    /\ attendances s3 = <[("e1"%string, "amina"%string) := a']> (attendances checked_in_store)
    /\ attendance_state s3 "e1" "amina" = StCheckedOut.
Proof.
  refine (check_in_then_check_out 10 200 "e1" "amina" None (Some "left early"%string)
            registered_store (mkAttendance (Some 10) None CHECKED_IN None)
            checked_in_store _ _ checked_in_store _).
  - vm_compute. reflexivity.
  - reflexivity.
  - reflexivity.
Defined.

(** X9.  A request of the attendance endpoints (check-in, check-out, mark
    attendance) changes at most the attendance row of its own pair: the
    events with their counters, the registrations, the QR codes and every
    other attendance row stay as they are.  A check-in through these
    endpoints takes no seat. *)
Theorem attendance_only_frame P env now op s eventId userId :
  attendance_only op = Some (eventId, userId) ->
  events (post P env now op s) = events s
  /\ registrations (post P env now op s) = registrations s
  /\ qrCodes (post P env now op s) = qrCodes s
  /\ users (post P env now op s) = users s
  /\ forall k, k <> (eventId, userId) ->
       attendances (post P env now op s) !! k = attendances s !! k.
Proof.
  intros Hop. destruct op; simpl in Hop; simplify_eq.
  all: unfold_services; repeat case_match; simplify_eq/=; repeat split; try done.
  all: intros k Hk; by rewrite lookup_insert_ne.
Qed.

(** X9 (witness): the check-in of the registered sample member leaves the
    counter at 1. *)
Lemma attendance_only_frame_witness :
  events checked_in_store = events registered_store.
Proof.
  exact (proj1 (attendance_only_frame demo_platform demo_env 10 (CheckIn "e1" "amina" None)
                  registered_store "e1" "amina" eq_refl)).
Defined.

(** ** Tokens on the wire *)

(** X10.  An issued token has exactly four colon-separated parts: the
    literal event-checkin, the event id, the issuing time in milliseconds as
    a decimal number, and the signature (event id and signature holding no
    colon, as generated keys and hex digests do). *)
Theorem issued_token_parts P env now eventId hours s g s' :
  QRCodeService.generateEventQR P env now eventId hours s = Ok (g, s') ->
  colon_free eventId = true ->
  colon_free (QRCodeService.signature P env eventId now) = true ->
  split colon (g_qrData g)
  = ["event-checkin"%string; eventId; decimal now;
     QRCodeService.signature P env eventId now].
Proof.
  intros (e & _ & _ & -> & _)%generateEventQR_Ok Hid Hsig.
  unfold QRCodeService.secureToken. rewrite token_shape.
  change ("event-checkin:" +:+ eventId +:+ ":" +:+ decimal now +:+ ":"
          +:+ QRCodeService.signature P env eventId now)
    with ("event-checkin" +:+ String colon
            (eventId +:+ String colon
               (decimal now +:+ String colon (QRCodeService.signature P env eventId now)))).
  rewrite split_app_colon by reflexivity.
  rewrite split_app_colon by done.
  rewrite split_app_colon by apply colon_free_decimal.
  by rewrite split_colon_free.
Qed.

(** X10 (witness): the token issued at 10 for the sample event. *)
Lemma issued_token_parts_witness :
  split colon demo_token
  = ["event-checkin"; "e1"; "10"; "5e884898da28047151d0e56f8dc62927"]%string.
Proof.
  exact (issued_token_parts demo_platform demo_env 10 "e1" 24
           (sample_store "e1" (running_event (Some 5) 0 true (Some 50)))
           (mkGenerated
              (render (FRONTEND_URL demo_env) +:+ "/events/e1/checkin?token="
               +:+ demo_token)
              demo_token
              (render (FRONTEND_URL demo_env) +:+ "/events/e1/checkin?token="
               +:+ demo_token)
              86400010 "e1")
           deadline_store eq_refl eq_refl eq_refl).
Defined.

(** X11.  A token issued for one event is answered EventMismatch at every
    other event, by [ValidateToken] and by the check-in with token, whatever
    the store holds. *)
Theorem token_of_other_event P env now timestamp eventId eventId' userId s :
  colon_free eventId = true -> eventId <> eventId' ->
  QRCodeService.validateCheckinToken now eventId'
    (QRCodeService.secureToken P env eventId timestamp) s = Err EventMismatch
  /\ QRCodeService.checkInWithToken now eventId'
       (QRCodeService.secureToken P env eventId timestamp) userId s = Err EventMismatch.
Proof.
  intros Hfree Hne.
  assert (Hv : QRCodeService.validateCheckinToken now eventId'
                 (QRCodeService.secureToken P env eventId timestamp) s
               = Err EventMismatch).
  { unfold QRCodeService.validateCheckinToken, QRCodeService.secureToken.
    destruct (token_parts eventId timestamp
                (QRCodeService.signature P env eventId timestamp) Hfree)
      as (rest & -> & Hrest).
    simpl. destruct (Nat.ltb_spec (S (S (length rest))) 4); [lia |].
    simpl. rewrite bool_decide_eq_false_2; [done |]. congruence. }
  split; [done |]. unfold QRCodeService.checkInWithToken. by rewrite Hv.
Qed.

(** X11 (witness): the sample token, presented at event e2. *)
Lemma token_of_other_event_witness :
  QRCodeService.validateCheckinToken 20 "e2" demo_token deadline_store = Err EventMismatch.
Proof.
  refine (proj1 (token_of_other_event demo_platform demo_env 20 10 "e1" "e2" "amina"
                   deadline_store _ _)).
  - reflexivity.
  - discriminate.
Defined.

(** X12.  The expiry of a token issued for a whole number of hours, where
    the expiry is computed exactly ([exact_expiry]): [ValidateToken] answers
    TokenExpired exactly at the times after [now + expirationHours *
    3600000], and tests this before it looks at the event; a code issued
    with a negative whole number of hours is expired at once. *)
Theorem issued_token_expiry P env now now' eventId hours s g s' :
  exact_expiry now hours ->
  colon_free eventId = true ->
  QRCodeService.generateEventQR P env now eventId hours s = Ok (g, s') ->
  (QRCodeService.validateCheckinToken now' eventId (g_qrData g) s' = Err TokenExpired
   <-> now + hours * 60 * 60 * 1000 < now')
  /\ (hours < 0 ->
      QRCodeService.validateCheckinToken now eventId (g_qrData g) s' = Err TokenExpired).
Proof.
  intros _ Hfree Hgen.
  pose proof Hgen as (e & He & _ & _ & Hexp & _)%generateEventQR_Ok.
  assert (Hshape : forall t,
    QRCodeService.validateCheckinToken t eventId (g_qrData g) s' = Err TokenExpired
    <-> now + hours * 60 * 60 * 1000 < t).
  { intros t. rewrite (validate_issued _ _ _ t _ _ _ _ _ _ Hfree Hgen He), Hexp.
    destruct (Z.ltb_spec (now + hours * 60 * 60 * 1000) t).
    - split; [done | done].
    - split; [| lia]. repeat case_match; done. }
  split; [apply Hshape |]. intros Hneg. apply Hshape. lia.
Qed.

(** X12 (witness): a code issued at 0 for one hour is expired at 3600001 and
    not at 3600000. *)
Lemma issued_token_expiry_witness :
  QRCodeService.validateCheckinToken 3600001 "e1"
    (QRCodeService.secureToken demo_platform demo_env "e1" 0) hour_code_store
  = Err TokenExpired.
Proof.
  refine (proj2 (proj1 (issued_token_expiry demo_platform demo_env 0 3600001 "e1" 1
            (sample_store "e1" (sample_event 0 86400000 None 0 false None))
            (mkGenerated _ (QRCodeService.secureToken demo_platform demo_env "e1" 0) _ _ _)
            hour_code_store _ _ _)) _).
  - unfold exact_expiry. simpl. lia.
  - reflexivity.
  - vm_compute. reflexivity.
  - lia.
Defined.

(** ** Revoking, sweeping and reading QR codes *)

Lemma active_rows_alter_first eventId l i q :
  QRCodeService.find_index (QRCodeService.active_for eventId) l = Some (i, q) ->
  active_rows eventId (alter QRCodeService.deactivate i l)
  = tail (active_rows eventId l).
Proof.
  revert i. induction l as [| x l IH]; intros i; simpl; [done |].
  destruct (QRCodeService.active_for eventId x) eqn:Hx.
  - intros [= <- <-]. simpl. rewrite !filter_cons, active_for_deactivate, Hx.
    by repeat case_decide.
  - destruct (QRCodeService.find_index (QRCodeService.active_for eventId) l)
      as [[j q']|] eqn:Hfind; [| done].
    intros [= <- <-]. simpl. rewrite !filter_cons, Hx.
    case_decide; [done |]. by apply IH.
Qed.

Lemma active_rows_alter_other eventId eventId' l i q :
  QRCodeService.find_index (QRCodeService.active_for eventId) l = Some (i, q) ->
  eventId' <> eventId ->
  active_rows eventId' (alter QRCodeService.deactivate i l) = active_rows eventId' l.
Proof.
  intros Hfind Hne. revert i Hfind.
  induction l as [| x l IH]; intros i; simpl; [done |].
  destruct (QRCodeService.active_for eventId x) eqn:Hx.
  - intros [= <- <-]. simpl. rewrite !filter_cons, active_for_deactivate.
    assert (QRCodeService.active_for eventId' x = false) as ->.
    { unfold QRCodeService.active_for in *.
      apply andb_true_iff in Hx as [He%String.eqb_eq _].
      destruct (String.eqb_spec (qr_eventId x) eventId'); [congruence | done]. }
    by repeat case_decide.
  - destruct (QRCodeService.find_index (QRCodeService.active_for eventId) l)
      as [[j q']|] eqn:Hfind; [| done].
    intros [= <- <-]. simpl. rewrite !filter_cons.
    pose proof (IH j eq_refl) as IHj. unfold alter in IHj. by rewrite IHj.
Qed.

Lemma find_index_None_active eventId l :
  QRCodeService.find_index (QRCodeService.active_for eventId) l = None
  <-> active_rows eventId l = [].
Proof.
  induction l as [| x l IH]; simpl; [done |].
  rewrite filter_cons.
  destruct (QRCodeService.active_for eventId x) eqn:Hx.
  - case_decide; [| done]. split; done.
  - case_decide; [done |].
    destruct (QRCodeService.find_index (QRCodeService.active_for eventId) l)
      as [[j q']|]; split; intros Hnone; try done.
    + apply IH in Hnone. done.
    + by apply IH.
Qed.

Lemma no_active_no_match eventId token l :
  active_rows eventId l = [] ->
  QRCodeService.findFirst (QRCodeService.matches eventId token) l = None.
Proof.
  intros Hnone. apply findFirst_None. intros q Hq.
  destruct (QRCodeService.matches eventId token q) eqn:Hm; [| done].
  assert (Hact : QRCodeService.active_for eventId q = true).
  { unfold QRCodeService.matches, QRCodeService.active_for in *.
    apply andb_true_iff in Hm as [[-> _]%andb_true_iff ->]. done. }
  assert (q ∈ active_rows eventId l) as Hin by (by apply list_elem_of_filter).
  rewrite Hnone in Hin. by apply elem_of_nil in Hin.
Qed.

(** X13.  [revokeQRCode] answers NoActiveToken exactly when the event has no
    active code; otherwise it deactivates the first active code of the event
    and nothing else, leaving the codes of every other event as they are.
    With at most one active code per event, the event is then left with no
    active code: a second revocation answers NoActiveToken, and no token
    validates for the event. *)
Theorem revokeQRCode_effect eventId s :
  (QRCodeService.revokeQRCode eventId s = Err NoActiveToken
   <-> active_rows eventId (qrCodes s) = [])
  /\ (forall s', QRCodeService.revokeQRCode eventId s = Ok s' ->
      active_rows eventId (qrCodes s') = tail (active_rows eventId (qrCodes s))
      /\ (forall eventId', eventId' <> eventId ->
            active_rows eventId' (qrCodes s') = active_rows eventId' (qrCodes s))
      /\ events s' = events s /\ registrations s' = registrations s
      /\ attendances s' = attendances s
      /\ (one_active s ->
          QRCodeService.revokeQRCode eventId s' = Err NoActiveToken
          /\ forall now token,
               is_ok (QRCodeService.validateCheckinToken now eventId token s') = false)).
Proof.
  unfold QRCodeService.revokeQRCode. split.
  - rewrite <- find_index_None_active.
    destruct (QRCodeService.find_index (QRCodeService.active_for eventId) (qrCodes s))
      as [[i q]|]; split; done.
  - intros s'.
    destruct (QRCodeService.find_index (QRCodeService.active_for eventId) (qrCodes s))
      as [[i q]|] eqn:Hfind; [| done].
    intros [= <-]. simpl.
    rewrite (active_rows_alter_first _ _ _ _ Hfind).
    split; [done |]. split.
    { intros eventId' Hne. by eapply active_rows_alter_other. }
    split; [done |]. split; [done |]. split; [done |].
    intros Hone.
    assert (Hnone : active_rows eventId (alter QRCodeService.deactivate i (qrCodes s)) = []).
    { rewrite (active_rows_alter_first _ _ _ _ Hfind).
      specialize (Hone eventId).
      destruct (active_rows eventId (qrCodes s)) as [| x [| y r]];
        simpl in *; try done; lia. }
    split.
    + apply find_index_None_active in Hnone. by rewrite Hnone.
    + intros now token. unfold QRCodeService.validateCheckinToken. simpl.
      rewrite (no_active_no_match _ _ _ Hnone). repeat case_match; done.
Qed.

(** X13 (witness): the code of the sample event is revoked; the token then
    no longer validates and a second revocation finds nothing. *)
Lemma revokeQRCode_effect_witness :
  QRCodeService.revokeQRCode "e1"
    (post demo_platform demo_env 20 (RevokeQR "e1") deadline_store)
  = Err NoActiveToken.
Proof.
  refine (proj1 (proj2 (proj2 (proj2 (proj2 (proj2
            (proj2 (revokeQRCode_effect "e1" deadline_store) _ _))))) _)).
  - vm_compute. reflexivity.
  - apply one_active_step. intros eventId. simpl. lia.
Defined.

Lemma deactivate_where_twice p l :
  (forall q, p (QRCodeService.deactivate q) = false) ->
  QRCodeService.deactivate_where p (QRCodeService.deactivate_where p l)
  = QRCodeService.deactivate_where p l.
Proof.
  intros Hp. unfold QRCodeService.deactivate_where.
  induction l as [| q l IH]; simpl; [done |]. rewrite IH. f_equal.
  destruct (p q) eqn:Hq; [by rewrite Hp | by rewrite Hq].
Qed.

(** X14.  The expiry sweep is idempotent; it deactivates exactly the active
    codes that expired before [now] and leaves every other row, and every
    other table, as it is; after it, every active code has
    [expiresAt >= now]. *)
Theorem cleanupExpiredQRCodes_effect now s :
  QRCodeService.cleanupExpiredQRCodes now (QRCodeService.cleanupExpiredQRCodes now s)
  = QRCodeService.cleanupExpiredQRCodes now s
  /\ (forall q, q ∈ qrCodes (QRCodeService.cleanupExpiredQRCodes now s) ->
        qr_isActive q = true -> now <= expiresAt q)
  /\ (forall i q, qrCodes s !! i = Some q ->
        qrCodes (QRCodeService.cleanupExpiredQRCodes now s) !! i
        = Some (if (expiresAt q <? now) && qr_isActive q
                then QRCodeService.deactivate q else q))
  /\ length (qrCodes (QRCodeService.cleanupExpiredQRCodes now s)) = length (qrCodes s)
  /\ events (QRCodeService.cleanupExpiredQRCodes now s) = events s
  /\ registrations (QRCodeService.cleanupExpiredQRCodes now s) = registrations s
  /\ attendances (QRCodeService.cleanupExpiredQRCodes now s) = attendances s.
Proof.
  unfold QRCodeService.cleanupExpiredQRCodes. split; [| split; [| split; [| split]]].
  - destruct s as [us ev rg at_ qr]. unfold set_qrCodes. simpl. f_equal.
    apply deactivate_where_twice. intros q. simpl. apply andb_false_r.
  - simpl. intros q Hq Hact. unfold QRCodeService.deactivate_where in Hq.
    apply list_elem_of_fmap in Hq as (q0 & -> & _).
    destruct ((expiresAt q0 <? now) && qr_isActive q0) eqn:Hc; [done |].
    apply andb_false_iff in Hc as [Hc | Hc]; [| congruence].
    apply Z.ltb_ge in Hc. lia.
  - simpl. intros i q Hi. unfold QRCodeService.deactivate_where.
    by rewrite list_lookup_fmap, Hi.
  - simpl. unfold QRCodeService.deactivate_where. apply length_fmap.
  - done.
Qed.

Lemma findFirst_deactivate_where p c l q :
  QRCodeService.findFirst p l = Some q -> c q = false ->
  (forall x, p (QRCodeService.deactivate x) = false) ->
  QRCodeService.findFirst p (QRCodeService.deactivate_where c l) = Some q.
Proof.
  unfold QRCodeService.findFirst, QRCodeService.deactivate_where.
  intros Hfind Hc Hp. induction l as [| x l IH]; simpl in *; [done |].
  destruct (p x) eqn:Hx.
  - injection Hfind as ->. by rewrite Hc, Hx.
  - assert (p (if c x then QRCodeService.deactivate x else x) = false) as ->
      by (destruct (c x); [apply Hp | done]).
    destruct (QRCodeService.find_index p l) as [[j q']|] eqn:Hl; [| done].
    simpl in Hfind. injection Hfind as ->.
    specialize (IH eq_refl).
    destruct (QRCodeService.find_index p (map _ l)) as [[j' q'']|];
      simpl in *; [by injection IH as -> | done].
Qed.

(** X15.  The expiry sweep never takes a valid token away: a token that
    validates at some time validates, with the same answer, after any sweep
    run at that time or earlier. *)
Theorem cleanup_keeps_valid_tokens now now' eventId token s info :
  QRCodeService.validateCheckinToken now' eventId token s = Ok info ->
  now <= now' ->
  QRCodeService.validateCheckinToken now' eventId token
    (QRCodeService.cleanupExpiredQRCodes now s) = Ok info.
Proof.
  unfold QRCodeService.validateCheckinToken, QRCodeService.cleanupExpiredQRCodes.
  intros Hv Hle. simpl.
  destruct ((length (split colon token) <? 4)%nat
            || negb (bool_decide (part 0 (split colon token) = Some "event-checkin"%string)));
    [done |].
  destruct (negb (bool_decide (part 1 (split colon token) = Some eventId))); [done |].
  destruct (QRCodeService.findFirst (QRCodeService.matches eventId token) (qrCodes s))
    as [q|] eqn:Hfind; [| done].
  destruct (Z.ltb_spec (expiresAt q) now'); [done |].
  rewrite (findFirst_deactivate_where _ _ _ q Hfind).
  - destruct (Z.ltb_spec (expiresAt q) now'); [lia | done].
  - apply andb_false_iff. left. apply Z.ltb_ge. lia.
  - intros x. unfold QRCodeService.matches. simpl. apply andb_false_r.
Qed.

(** X15 (witness): the sample token survives a sweep at 20. *)
Lemma cleanup_keeps_valid_tokens_witness :
  is_ok (QRCodeService.validateCheckinToken 20 "e1" demo_token
           (QRCodeService.cleanupExpiredQRCodes 20 deadline_store)) = true.
Proof.
  rewrite (cleanup_keeps_valid_tokens 20 20 "e1" demo_token deadline_store
             (mkTokenInfo "e1" "Friday Prayer" 0 100 true (Some 50) (Some 5) 0 true
                          86400010)).
  - reflexivity.
  - vm_compute. reflexivity.
  - lia.
Defined.

(** ** QR rows are only ever appended or deactivated *)

Lemma aged_refl q : aged q q.
Proof. by left. Qed.

Lemma aged_trans q1 q2 q3 : aged q1 q2 -> aged q2 q3 -> aged q1 q3.
Proof.
  intros [-> | ->] [-> | ->]; unfold aged; auto.
Qed.

Lemma table_aged_step P env now op s :
  table_aged (qrCodes s) (qrCodes (post P env now op s)).
Proof.
  assert (Hrefl : table_aged (qrCodes s) (qrCodes s))
    by (intros i q Hi; eauto using aged_refl).
  destruct op;
    try (unfold_services; repeat case_match; simplify_eq/=; exact Hrefl).
  - (* GenerateQR *)
    unfold post, run, reply.
    destruct (QRCodeService.generateEventQR P env now eventId expirationHours s)
      as [[g s']|] eqn:Hgen; [| exact Hrefl].
    apply generateEventQR_Ok in Hgen as (e & _ & _ & _ & _ & _ & ->).
    intros i q Hi. unfold QRCodeService.deactivate_where.
    rewrite lookup_app_l by (rewrite length_fmap; by eapply lookup_lt_Some).
    rewrite list_lookup_fmap, Hi. simpl. eexists. split; [done |].
    unfold aged. destruct (QRCodeService.active_for eventId q); auto.
  - (* RevokeQR *)
    unfold_services. repeat case_match; simplify_eq/=; try exact Hrefl.
    intros i q0 Hi. destruct (decide (n = i)) as [-> | Hne].
    + rewrite list_lookup_alter_eq, Hi. simpl. eexists. split; [done |]. by right.
    + rewrite list_lookup_alter_ne by done. eauto using aged_refl.
  - (* CleanupQR *)
    unfold_services. simpl. intros i q Hi. unfold QRCodeService.deactivate_where.
    rewrite list_lookup_fmap, Hi. simpl. eexists. split; [done |].
    unfold aged. destruct ((expiresAt q <? now) && qr_isActive q); auto.
Qed.

(** X16.  QR rows are never deleted, rewritten or reactivated: after any run
    of requests every row of the table is still there at its place, with the
    same event, token and expiry, and inactive if it was inactive. *)
Theorem qr_rows_only_age P env trace s :
  table_aged (qrCodes s) (qrCodes (post_all P env trace s))
  /\ forall i q, qrCodes s !! i = Some q ->
       exists q', qrCodes (post_all P env trace s) !! i = Some q'
                  /\ qr_eventId q' = qr_eventId q /\ qrData q' = qrData q
                  /\ expiresAt q' = expiresAt q
                  /\ (qr_isActive q = false -> qr_isActive q' = false).
Proof.
  assert (Haged : table_aged (qrCodes s) (qrCodes (post_all P env trace s))).
  { revert s. induction trace as [| [now op] rest IH]; intros s; simpl.
    - intros i q Hi. eauto using aged_refl.
    - intros i q Hi.
      destruct (table_aged_step P env now op s i q Hi) as (q1 & Hq1 & Ha1).
      destruct (IH _ i q1 Hq1) as (q2 & Hq2 & Ha2).
      eauto using aged_trans. }
  split; [done |].
  intros i q Hi. destruct (Haged i q Hi) as (q' & Hq' & [-> | ->]); eauto 10.
Qed.

(** X14 (witness): a sweep at 200000000 deactivates the day-long code of the
    sample event, and only then. *)
Lemma cleanupExpiredQRCodes_effect_witness :
  qrCodes (QRCodeService.cleanupExpiredQRCodes 20 deadline_store) !! 0%nat
  = Some (mkQRCode "e1" demo_token "secure" 86400010 true 10)
  /\ qrCodes (QRCodeService.cleanupExpiredQRCodes 200000000 deadline_store) !! 0%nat
     = Some (mkQRCode "e1" demo_token "secure" 86400010 false 10).
Proof.
  split.
  - apply (proj1 (proj2 (proj2 (cleanupExpiredQRCodes_effect 20 deadline_store))) 0%nat
             (mkQRCode "e1" demo_token "secure" 86400010 true 10)).
    reflexivity.
  - apply (proj1 (proj2 (proj2 (cleanupExpiredQRCodes_effect 200000000 deadline_store)))
             0%nat (mkQRCode "e1" demo_token "secure" 86400010 true 10)).
    reflexivity.
Defined.

(** X16 (witness): the first code of the sample event after a second
    issuance: still row 0, same token and expiry. *)
Lemma qr_rows_only_age_witness :
  exists q', qrCodes reissued_store !! 0%nat = Some q'
             /\ qr_eventId q' = "e1"%string /\ qrData q' = demo_token
             /\ expiresAt q' = 86400010.
Proof.
  destruct (proj2 (qr_rows_only_age demo_platform demo_env [(20, GenerateQR "e1" 24)]
                     (with_qr (sample_store "e1" (running_event (Some 5) 0 true None))))
              0%nat (mkQRCode "e1" demo_token "secure" 86400010 true 10) eq_refl)
    as (q' & Hq' & He & Hd & Hx & _).
  exists q'. auto.
Defined.

(** ** The two QR check-in paths *)

(** X17.  Whatever the check-in with token accepts, the QR check-in by
    [qrData] accepts too, with the same answer and the same store: the older
    path makes no check that the newer one does not make. *)
Theorem checkInWithToken_then_validateAndCheckIn now eventId token userId s r :
  QRCodeService.checkInWithToken now eventId token userId s = Ok r ->
  QRCodeService.validateAndCheckIn now token userId s = Ok r.
Proof.
  unfold QRCodeService.checkInWithToken.
  destruct (QRCodeService.validateCheckinToken now eventId token s) as [info|] eqn:Hv;
    [| done].
  unfold QRCodeService.validateCheckinToken in Hv.
  destruct (Nat.ltb_spec (length (split colon token)) 4) as [| Hlen]; [done |].
  simpl in Hv.
  destruct (decide (part 0 (split colon token) = Some "event-checkin"%string))
    as [H0 | H0];
    [rewrite (bool_decide_eq_true_2 _ H0) in Hv
    | by rewrite (bool_decide_eq_false_2 _ H0) in Hv].
  simpl in Hv.
  destruct (decide (part 1 (split colon token) = Some eventId)) as [H1 | H1];
    [rewrite (bool_decide_eq_true_2 _ H1) in Hv
    | by rewrite (bool_decide_eq_false_2 _ H1) in Hv].
  simpl in Hv.
  destruct (QRCodeService.findFirst (QRCodeService.matches eventId token) (qrCodes s))
    as [q|] eqn:Hfind; [| done].
  destruct (expiresAt q <? now) eqn:Hexp; [done |].
  destruct (events s !! eventId) as [e|] eqn:He; [| done].
  destruct (isActive e) eqn:Hact; simpl in Hv; [| done].
  destruct (now <? startDate e) eqn:Hs; [done |].
  destruct (endDate e <? now) eqn:Hend; [done |].
  intros Hin. unfold QRCodeService.validateAndCheckIn.
  destruct (Nat.ltb_spec (length (split colon token)) 2); [lia |].
  rewrite (bool_decide_eq_true_2 _ H0), H1. simpl.
  by rewrite Hfind, Hexp, He, Hact, Hs, Hend.
Qed.

(** X17 (witness): the first check-in of the sample member by token. *)
Lemma checkInWithToken_then_validateAndCheckIn_witness :
  is_ok (QRCodeService.validateAndCheckIn 20 demo_token "amina" deadline_store) = true.
Proof.
  destruct (QRCodeService.checkInWithToken 20 "e1" demo_token "amina" deadline_store)
    as [r|] eqn:Hr; [| by vm_compute in Hr].
  by rewrite (checkInWithToken_then_validateAndCheckIn 20 "e1" demo_token "amina"
                deadline_store r Hr).
Defined.

(** ** The QR handlers of the event controller *)

(** X18.  The QR endpoints: [generateQR] reaches its call of the service
    exactly for an existing event and a caller who is ADMIN, or SUBADMIN and
    the creator of the event, so never for a USER; a missing event is
    answered before the role is looked at; and [revokeQR] and [getQRStatus]
    refuse the same callers with the same answer. *)
Theorem generateQR_endpoint eventId uid role s :
  (forall e, events s !! eventId = Some e ->
     (EventController.generateQR eventId uid role s = Ok tt
      <-> role = ADMIN \/ (role = SUBADMIN /\ createdById e = uid)))
  /\ (events s !! eventId = None ->
      EventController.generateQR eventId uid role s = Err EventNotFound)
  /\ (forall err, err = EventNotFound \/ err = Forbidden ->
        (EventController.generateQR eventId uid role s = Err err
         <-> EventController.revokeQR eventId uid role s = Err err)
        /\ (EventController.revokeQR eventId uid role s = Err err
            <-> EventController.getQRStatus eventId uid role s = Err err)).
Proof.
  unfold EventController.generateQR, EventController.revokeQR,
    EventController.getQRStatus, EventService.getEventById,
    EventController.may_manage_qr.
  split; [| split].
  - intros e ->. destruct role; simpl.
    + split; [done | intros [? | [? _]]; done].
    + destruct (String.eqb_spec (createdById e) uid); simpl.
      * split; [by right | done].
      * split; [done | intros [? | [_ ?]]; done].
    + split; [by left | done].
  - by intros ->.
  - intros err Herr. destruct (events s !! eventId) as [e|] eqn:He.
    + destruct (negb (negb (EventService.role_eqb role USER
                            || EventService.role_eqb role SUBADMIN
                               && negb (createdById e =? uid)%string))) eqn:Hperm.
      * split; split; by intros [= <-].
      * unfold QRCodeService.revokeQRCode.
        split; split; intros Hcontra; exfalso;
          destruct Herr as [-> | ->]; repeat case_match; simplify_eq/=.
    + split; split; by intros [= <-].
Qed.




(** ** Users *)

Lemma clashes_true column id u t :
  UserService.clashes column id u t = true <->
  exists v j w, column u = Some v /\ j <> id /\ t !! j = Some w /\ column w = Some v.
Proof.
  unfold UserService.clashes. destruct (column u) as [v|]; [|split; [done|]].
  - rewrite bool_decide_eq_true. unfold map_Exists. split.
    + intros (j & w & Hj & Hne & Hw). by exists v, j, w.
    + intros (v' & j & w & [= <-] & Hne & Hj & Hw). by exists j, w.
  - by intros (v & ? & ? & ? & _).
Qed.

Lemma taken_false column v t :
  UserService.taken column v t = false <->
  forall j w, t !! j = Some w -> column w <> Some v.
Proof.
  unfold UserService.taken. rewrite bool_decide_eq_false. unfold map_Exists. split.
  - intros Hno j w Hj Hw. apply Hno. by exists j, w.
  - intros Hall (j & w & Hj & Hw). by apply (Hall j w).
Qed.

Lemma clashes_same_column column id u u' t :
  column u' = column u ->
  UserService.clashes column id u' t = UserService.clashes column id u t.
Proof. unfold UserService.clashes. by intros ->. Qed.

Lemma unique_contacts_row t id u :
  UserService.unique_contacts t -> t !! id = Some u ->
  UserService.clashes UserService.email id u t = false
  /\ UserService.clashes UserService.phone id u t = false.
Proof. intros Huniq Hrow. exact (Huniq id u Hrow). Qed.

(** X20. Every user may set the role of their own row, with one exception: a
    SUBADMIN cannot make themselves ADMIN.  A call of [updateUser] by the
    owner of row [id], with the role that row holds and a body that carries
    only a role [r], succeeds, leaves [r] in the row and changes no other
    row; so a USER can make themselves ADMIN. *)
Theorem updateUser_own_role (t : UserService.UserTable) (id : string)
    (u : UserService.User) (r : Role)
    (Hrow : t !! id = Some u)
    (Huniq : UserService.unique_contacts t)
    (Hsub : UserService.role u = SUBADMIN -> r <> ADMIN) :
  exists u' t',
    UserService.updateUser id (role_only r) (UserService.role u) id t = inr (u', t')
    /\ t' !! id = Some u'
    /\ UserService.role u' = r
    /\ forall j, j <> id -> t' !! j = t !! j.
Proof.
  destruct (unique_contacts_row t id u Huniq Hrow) as [Hmail Hphone].
  exists (UserService.apply_update (role_only r) u),
         (<[id := UserService.apply_update (role_only r) u]> t).
  split; [|split; [by rewrite lookup_insert_eq|split; [done|]]].
  - unfold UserService.updateUser. rewrite Hrow, String.eqb_refl. simpl.
    rewrite !andb_false_r. simpl.
    assert (UserService.role_is (UserService.role u) SUBADMIN
            && UserService.role_is (UserService.role u) ADMIN = false) as ->
      by (by destruct (UserService.role u)).
    assert (UserService.role_is (UserService.role u) SUBADMIN
            && UserService.role_is r ADMIN = false) as ->.
    { destruct (UserService.role u) eqn:Hr; try done.
      destruct r; try done. by destruct Hsub. }
    rewrite (clashes_same_column UserService.email id u) by done.
    rewrite (clashes_same_column UserService.phone id u) by done.
    by rewrite Hmail, Hphone.
  - intros j Hj. by rewrite lookup_insert_ne.
Qed.

(** X20 (witness): the member u1 of the sample table makes themselves ADMIN. *)
Lemma updateUser_own_role_witness :
  exists u' t',
    UserService.updateUser "u1" (role_only ADMIN) USER "u1" sample_users = inr (u', t')
    /\ t' !! "u1"%string = Some u'
    /\ UserService.role u' = ADMIN
    /\ forall j, j <> "u1"%string -> t' !! j = sample_users !! j.
Proof.
  refine (updateUser_own_role sample_users "u1" (sample_user USER "amina@example.org")
            ADMIN eq_refl _ _).
  - apply (bool_decide_unpack _). vm_compute. exact I.
  - intros H. discriminate H.
Defined.

(** What a successful [updateUser] has checked and written. *)
Lemma updateUser_inr id d c uid t u' t' :
  UserService.updateUser id d c uid t = inr (u', t') ->
  exists u, t !! id = Some u
    /\ u' = UserService.apply_update d u
    /\ t' = <[id := u']> t
    /\ (c = USER -> uid = id)
    /\ (c = SUBADMIN ->
        UserService.role u <> ADMIN /\ UserService.new_role d <> Some ADMIN
        /\ (UserService.role u = SUBADMIN -> uid = id))
    /\ UserService.clashes UserService.email id u' t = false
    /\ UserService.clashes UserService.phone id u' t = false.
Proof.
  unfold UserService.updateUser. intros Hup.
  destruct (t !! id) as [u|] eqn:Hrow; [|done].
  repeat case_match; simplify_eq.
  all: exists u.
  all: repeat match goal with
  | H : _ || _ = false |- _ => apply orb_false_iff in H as [? ?]
  end.
  all: split; [done|]; split; [done|]; split; [done|].
  all: split; [|split; [|done]].
  all: intros ->; simpl in *.
  all: try (destruct (String.eqb_spec uid id); done).
  all: split; [by destruct (UserService.role u)|].
  all: split; [first [done | by intros [= ->]]|].
  all: intros Hr; rewrite Hr in *; simpl in *.
  all: destruct (String.eqb_spec uid id); done.
Qed.

(** X21. A SUBADMIN never touches an administrator through [updateUser]:
    when a call with the caller's role SUBADMIN succeeds, the rows whose role
    is ADMIN are the same rows before and after it, whatever the body and
    whichever row is written. *)
Theorem updateUser_subadmin_keeps_admins (t t' : UserService.UserTable)
    (id uid : string) (d : UserService.UpdateUserDto) (u' : UserService.User)
    (Hup : UserService.updateUser id d SUBADMIN uid t = inr (u', t')) :
  forall j w, UserService.role w = ADMIN ->
    (t' !! j = Some w <-> t !! j = Some w).
Proof.
  destruct (updateUser_inr _ _ _ _ _ _ _ Hup)
    as (u & Hrow & -> & -> & _ & Hsub & _).
  destruct (Hsub eq_refl) as (Hold & Hnew & _).
  intros j w Hw. destruct (decide (j = id)) as [->|Hne].
  - rewrite lookup_insert_eq, Hrow. split; intros [= <-]; exfalso.
    + simpl in Hw. destruct (UserService.new_role d) as [r|]; simpl in Hw; congruence.
    + done.
  - by rewrite lookup_insert_ne.
Qed.

(** X21 (witness): the sub-administrator u2 renames the member u1; the
    administrator u3 is where they were. *)
Lemma updateUser_subadmin_keeps_admins_witness :
  <["u1"%string :=
      UserService.apply_update
        (UserService.mkUpdateUser (Some "Aminah"%string) None UserService.Undefined
           UserService.Undefined None None None None)
        (sample_user USER "amina@example.org")]> sample_users !! "u3"%string
    = Some (sample_user ADMIN "chair@example.org")
  <-> sample_users !! "u3"%string = Some (sample_user ADMIN "chair@example.org").
Proof.
  refine (updateUser_subadmin_keeps_admins sample_users _ "u1" "u2"
            (UserService.mkUpdateUser (Some "Aminah"%string) None UserService.Undefined
               UserService.Undefined None None None None) _ _
            "u3" (sample_user ADMIN "chair@example.org") eq_refl).
  vm_compute. reflexivity.
Defined.

(** *** The session *)

Lemma prefix_true_append (p s : string) :
  String.prefix p s = true -> s = p +:+ substring_from (String.length p) s.
Proof.
  revert s. induction p as [|c p IH]; intros s Hp; [by destruct s|].
  destruct s as [|c' s]; [done|]. simpl in Hp.
  destruct (ascii_dec c c') as [->|]; [|done].
  change (String c' s = String c' (p +:+ substring_from (String.length p) s)).
  f_equal. by apply IH.
Qed.

Lemma extractTokenFromHeader_header (authHeader : option string) (token : string) :
  extractTokenFromHeader authHeader = Some token ->
  authHeader = Some ("Bearer " +:+ token).
Proof.
  destruct authHeader as [h|]; [|done]. unfold extractTokenFromHeader.
  destruct h as [|c h]; [done|].
  destruct (String.prefix "Bearer " (String c h)) eqn:Hp; [|done].
  intros [= <-]. f_equal. exact (prefix_true_append "Bearer " _ Hp).
Qed.

(** X22. [extractTokenFromHeader] gives a token exactly for a header that is
    the word Bearer, one space and the token: the header is read with its
    case, the token is everything behind the space, and may be empty. *)
Theorem extractTokenFromHeader_bearer (authHeader : option string) (token : string) :
  extractTokenFromHeader authHeader = Some token
  <-> authHeader = Some ("Bearer " +:+ token).
Proof.
  split; [apply extractTokenFromHeader_header|].
  intros ->. by destruct token.
Qed.

(** What [authenticate] has established when it calls [next()]. *)
Lemma authenticate_inr verifyToken authorization t p :
  AuthMiddleware.authenticate verifyToken authorization t = inr p ->
  exists token u,
    authorization = Some ("Bearer " +:+ token)
    /\ verifyToken token = Some (AuthMiddleware.userId p)
    /\ t !! AuthMiddleware.userId p = Some u
    /\ UserService.isVerified u = true
    /\ AuthMiddleware.jwt_role p = UserService.role u.
Proof.
  unfold AuthMiddleware.authenticate. intros Hauth.
  destruct (extractTokenFromHeader authorization) as [token|] eqn:Hex; [|done].
  apply extractTokenFromHeader_header in Hex.
  destruct token as [|c token]; [done|].
  destruct (verifyToken (String c token)) as [uid|] eqn:Hv; [|done].
  destruct (t !! uid) as [u|] eqn:Hu; [|done].
  destruct (UserService.isVerified u) eqn:Hver; [|done].
  simpl in Hauth. injection Hauth as <-. simpl.
  by exists (String c token), u.
Qed.

(** X23. Who deletes whom through DELETE /api/users/:id.  When a request has
    passed [authenticate] and [requireSubAdmin], and [deleteUser], called as
    the controller calls it with the role and id of [req.user], reaches its
    delete, then the caller is a row of the table and not a USER; a row
    whose role is ADMIN is deleted only by another row whose role is ADMIN,
    so never the only administrator; and a row whose role is SUBADMIN only
    by an ADMIN or by its owner. *)
Theorem deleteUser_route_permissions (verifyToken : string -> option string)
    (authorization : option string) (t : UserService.UserTable)
    (p : AuthMiddleware.JwtPayload) (id : string) (target : UserService.User)
    (Hauth : AuthMiddleware.authenticate verifyToken authorization t = inr p)
    (Hguard : AuthMiddleware.requireSubAdmin (Some p) = inr tt)
    (Hrow : t !! id = Some target)
    (Hdel : UserService.deleteUser id (AuthMiddleware.jwt_role p)
              (AuthMiddleware.userId p) t = inr tt) :
  exists caller,
    t !! AuthMiddleware.userId p = Some caller
    /\ UserService.role caller <> USER
    /\ (UserService.role target = ADMIN ->
        UserService.role caller = ADMIN /\ AuthMiddleware.userId p <> id)
    /\ (UserService.role target = SUBADMIN ->
        UserService.role caller = ADMIN \/ AuthMiddleware.userId p = id).
Proof.
  destruct (authenticate_inr _ _ _ _ Hauth) as (token & u & _ & _ & Hu & _ & Hrole).
  exists u. unfold UserService.deleteUser in Hdel. rewrite Hrow in Hdel.
  unfold AuthMiddleware.requireSubAdmin, AuthMiddleware.authorize in Hguard.
  rewrite Hrole in *. split; [done|].
  destruct (String.eqb_spec (AuthMiddleware.userId p) id) as [Heq|Hne].
  - rewrite Heq, Hrow in Hu. injection Hu as <-.
    destruct (UserService.role target); simpl in *; try done.
    repeat split; (done || by right).
  - destruct (UserService.role u), (UserService.role target); simpl in *; try done;
      repeat split; (done || by left).
Qed.

(** X23 (witness): the administrator u3 of the sample table, to be deleted
    by a second administrator u4. *)
Lemma deleteUser_route_permissions_witness :
  exists caller,
    <["u4"%string := sample_user ADMIN "dawud@example.org"]> sample_users
      !! "u4"%string = Some caller
    /\ UserService.role caller <> USER
    /\ (ADMIN = ADMIN -> UserService.role caller = ADMIN /\ "u4"%string <> "u3"%string)
    /\ (ADMIN = SUBADMIN -> UserService.role caller = ADMIN \/ "u4"%string = "u3"%string).
Proof.
  refine (deleteUser_route_permissions
            (fun token => if String.eqb token "t4" then Some "u4"%string else None)
            (Some "Bearer t4"%string)
            (<["u4"%string := sample_user ADMIN "dawud@example.org"]> sample_users)
            (AuthMiddleware.mkPayload "u4" (Some "dawud@example.org"%string) None ADMIN)
            "u3" (sample_user ADMIN "chair@example.org") _ _ _ _);
    vm_compute; reflexivity.
Defined.

Lemma clashes_false column id u t :
  UserService.clashes column id u t = false <->
  forall v j w, column u = Some v -> j <> id -> t !! j = Some w -> column w <> Some v.
Proof.
  rewrite <- not_true_iff_false, clashes_true. split.
  - intros Hno v j w Hu Hne Hj Hw. apply Hno. by exists v, j, w.
  - intros Hall (v & j & w & Hu & Hne & Hj & Hw). by apply (Hall v j w).
Qed.

(** A contact column after the checks of [updateUser]: the value written
    clashes with no other row. *)
Lemma written_no_clash column (f : UserService.Field string) id u u' t :
  UserService.clashes column id u t = false ->
  f <> UserService.Value EmptyString ->
  match UserService.truthy f with
  | Some e => negb (bool_decide (column u = Some e)) && UserService.taken column e t
  | None => false
  end = false ->
  column u' = UserService.written f (column u) ->
  UserService.clashes column id u' t = false.
Proof.
  intros Hold Hne Hchecked Hu'. destruct f as [| |v]; simpl in Hu'.
  - by rewrite (clashes_same_column column id u).
  - unfold UserService.clashes. by rewrite Hu'.
  - destruct v as [|c v]; [done|]. simpl in Hchecked.
    apply andb_false_iff in Hchecked as [Hsame|Hfree].
    + apply negb_false_iff, bool_decide_eq_true in Hsame.
      rewrite (clashes_same_column column id u); [done|congruence].
    + apply clashes_false. intros v' j w Hv' _ Hj.
      rewrite Hu' in Hv'. injection Hv' as <-.
      exact (proj1 (taken_false column _ t) Hfree j w Hj).
Qed.

(** A row written past the unique index keeps the column unique. *)
Lemma insert_no_clash column (t : UserService.UserTable) id u' :
  (forall j w, t !! j = Some w -> UserService.clashes column j w t = false) ->
  UserService.clashes column id u' t = false ->
  forall j w, <[id := u']> t !! j = Some w ->
    UserService.clashes column j w (<[id := u']> t) = false.
Proof.
  intros Huniq Hnew j w Hj. apply clashes_false. intros v k x Hw Hk Hx Hcol.
  destruct (decide (j = id)) as [->|Hjid].
  - rewrite lookup_insert_eq in Hj. injection Hj as <-.
    rewrite lookup_insert_ne in Hx by done.
    exact (proj1 (clashes_false column id u' t) Hnew v k x Hw Hk Hx Hcol).
  - rewrite lookup_insert_ne in Hj by done.
    destruct (decide (k = id)) as [->|Hkid].
    + rewrite lookup_insert_eq in Hx. injection Hx as <-.
      exact (proj1 (clashes_false column id u' t) Hnew v j w Hcol Hjid Hj Hw).
    + rewrite lookup_insert_ne in Hx by done.
      exact (proj1 (clashes_false column j w t) (Huniq j w Hj) v k x Hw Hk Hx Hcol).
Qed.

(** X24. The checks of [updateUser] cover the unique indexes.  On a table
    whose e-mail addresses and phone numbers are unique, a call whose body
    has no empty e-mail address and no empty phone number never fails with
    the unique constraint error of the update: a taken value is answered
    with EMAIL_EXISTS or PHONE_EXISTS before the write.  After a successful
    call the two columns are unique again. *)
Theorem updateUser_checks_cover_indexes (t : UserService.UserTable)
    (id uid : string) (d : UserService.UpdateUserDto) (c : Role)
    (Huniq : UserService.unique_contacts t)
    (Hmail : UserService.new_email d <> UserService.Value EmptyString)
    (Hphone : UserService.new_phone d <> UserService.Value EmptyString) :
  UserService.updateUser id d c uid t <> inl UserService.P2002
  /\ forall u' t', UserService.updateUser id d c uid t = inr (u', t') ->
       UserService.unique_contacts t'.
Proof.
  split.
  - unfold UserService.updateUser.
    destruct (t !! id) as [u|] eqn:Hrow; [|done].
    destruct (unique_contacts_row t id u Huniq Hrow) as [Hm Hp].
    repeat match goal with
    | |- context [if ?b then inl ?e else _] => destruct b eqn:?; [done|]
    end.
    rewrite (written_no_clash UserService.email (UserService.new_email d) id u _ t)
      by done.
    by rewrite (written_no_clash UserService.phone (UserService.new_phone d) id u _ t)
      by done.
  - intros u' t' Hup.
    destruct (updateUser_inr _ _ _ _ _ _ _ Hup)
      as (u & Hrow & _ & -> & _ & _ & Hm & Hp).
    intros j w Hj. split.
    + apply (insert_no_clash UserService.email t id u'); [|done..].
      intros k x Hk. exact (proj1 (Huniq k x Hk)).
    + apply (insert_no_clash UserService.phone t id u'); [|done..].
      intros k x Hk. exact (proj2 (Huniq k x Hk)).
Qed.

(** X24 (witness): the member u1 of the sample table takes a new address. *)
Lemma updateUser_checks_cover_indexes_witness :
  UserService.updateUser "u1"
    (UserService.mkUpdateUser None None (UserService.Value "amina@example.com"%string)
       UserService.Undefined None None None None)
    USER "u1" sample_users <> inl UserService.P2002
  /\ forall u' t',
       UserService.updateUser "u1"
         (UserService.mkUpdateUser None None
            (UserService.Value "amina@example.com"%string)
            UserService.Undefined None None None None)
         USER "u1" sample_users = inr (u', t') ->
       UserService.unique_contacts t'.
Proof.
  apply updateUser_checks_cover_indexes.
  - apply (bool_decide_unpack _). vm_compute. exact I.
  - discriminate.
  - discriminate.
Defined.

(** ** One-time passwords *)

Lemma storeOTP_Some c phone h now r r1 :
  Otp.storeOTP c phone h now r = Some r1 ->
  0 < Otp.OTP_EXPIRES_IN c
  /\ r1 = <[Otp.otp_key phone := (h, now + Otp.OTP_EXPIRES_IN c * 1000)]> r.
Proof.
  unfold Otp.storeOTP, Otp.setEx. destruct (Z.ltb_spec 0 (Otp.OTP_EXPIRES_IN c)); [|done].
  by intros [= <-].
Qed.

Lemma get_insert_eq key v expiry now (r : Otp.Redis) :
  Otp.get key now (<[key := (v, expiry)]> r) = if expiry <? now then None else Some v.
Proof. unfold Otp.get. by rewrite lookup_insert_eq. Qed.

Lemma get_delete_eq key now (r : Otp.Redis) : Otp.get key now (delete key r) = None.
Proof. unfold Otp.get. by rewrite lookup_delete_eq. Qed.

Lemma verifyOTP_stored P c phone otp h expiry now (r : Otp.Redis) :
  now <= expiry -> h <> EmptyString ->
  Otp.verifyOTP P c phone otp now (<[Otp.otp_key phone := (h, expiry)]> r)
  = if String.eqb h (Otp.hashOTP P c otp)
    then (true, delete (Otp.otp_key phone) (<[Otp.otp_key phone := (h, expiry)]> r))
    else (false, <[Otp.otp_key phone := (h, expiry)]> r).
Proof.
  intros Hnow Hh. unfold Otp.verifyOTP. rewrite get_insert_eq.
  destruct (Z.ltb_spec expiry now); [lia|]. by destruct h.
Qed.

(** X25. An OTP is good for one login, and only during its lifetime.  After
    [storeOTP] of the hash of [otp] at [t0], [verifyOTP] with [otp] before
    the expiry answers true and deletes the key, after which every call for
    that phone answers false, the one with [otp] too; and past the expiry
    every call answers false. *)
Theorem verifyOTP_single_use (P : Platform) (c : Otp.Config) (phone otp : string)
    (t0 t1 : Time) (r r1 : Otp.Redis)
    (Hstore : Otp.storeOTP c phone (Otp.hashOTP P c otp) t0 r = Some r1)
    (Hhash : Otp.hashOTP P c otp <> EmptyString)
    (Hwindow : t1 < t0 + Otp.OTP_EXPIRES_IN c * 1000) :
  (exists r2, Otp.verifyOTP P c phone otp t1 r1 = (true, r2)
     /\ forall t2 guess, Otp.verifyOTP P c phone guess t2 r2 = (false, r2))
  /\ forall t2 guess, t0 + Otp.OTP_EXPIRES_IN c * 1000 < t2 ->
       Otp.verifyOTP P c phone guess t2 r1 = (false, r1).
Proof.
  destruct (storeOTP_Some _ _ _ _ _ _ Hstore) as [_ ->]. split.
  - eexists. split.
    + rewrite verifyOTP_stored by (done || lia). by rewrite String.eqb_refl.
    + intros t2 guess. unfold Otp.verifyOTP, Otp.del. by rewrite get_delete_eq.
  - intros t2 guess Hlate. unfold Otp.verifyOTP. rewrite get_insert_eq.
    by destruct (Z.ltb_spec (t0 + Otp.OTP_EXPIRES_IN c * 1000) t2); [|lia].
Qed.

(** X25 (witness): an OTP stored at 0 with five minutes to live, used after
    one minute. *)
Lemma verifyOTP_single_use_witness :
  (exists r2, Otp.verifyOTP demo_platform demo_config "07123456789" "482913" 60000
                (<[Otp.otp_key "07123456789" :=
                     (Otp.hashOTP demo_platform demo_config "482913", 300000)]> ∅)
              = (true, r2)
     /\ forall t2 guess,
          Otp.verifyOTP demo_platform demo_config "07123456789" guess t2 r2 = (false, r2))
  /\ forall t2 guess, 0 + Otp.OTP_EXPIRES_IN demo_config * 1000 < t2 ->
       Otp.verifyOTP demo_platform demo_config "07123456789" guess t2
         (<[Otp.otp_key "07123456789" :=
              (Otp.hashOTP demo_platform demo_config "482913", 300000)]> ∅)
       = (false,
          <[Otp.otp_key "07123456789" :=
              (Otp.hashOTP demo_platform demo_config "482913", 300000)]> ∅).
Proof.
  refine (verifyOTP_single_use demo_platform demo_config "07123456789" "482913"
            0 60000 ∅ _ eq_refl _ _).
  - discriminate.
  - vm_compute. reflexivity.
Defined.

Lemma verify_each_wrong P c phone h expiry (r : Otp.Redis) guesses :
  Forall (fun g => Otp.hashOTP P c g.2 <> h) guesses ->
  Otp.verify_each P c phone guesses (<[Otp.otp_key phone := (h, expiry)]> r)
  = (map (fun _ => false) guesses, <[Otp.otp_key phone := (h, expiry)]> r).
Proof.
  induction 1 as [|[now guess] guesses Hg _ IH]; [done|].
  simpl in *. unfold Otp.verifyOTP at 1. rewrite get_insert_eq.
  destruct (expiry <? now); [by rewrite IH|].
  destruct h as [|a h]; [by rewrite IH|].
  destruct (String.eqb_spec (String a h) (Otp.hashOTP P c guess)); [done|].
  by rewrite IH.
Qed.

(** X26. Wrong guesses cost nothing.  After [storeOTP] of the hash of [otp],
    any run of calls of [verifyOTP] for that phone with codes of another
    hash is answered false throughout and leaves the keys as they were, so
    that [otp] itself is still accepted afterwards, before the expiry: the
    function counts no attempts. *)
Theorem verifyOTP_wrong_guesses (P : Platform) (c : Otp.Config) (phone otp : string)
    (t0 t1 : Time) (r r1 : Otp.Redis) (guesses : list (Time * string))
    (Hstore : Otp.storeOTP c phone (Otp.hashOTP P c otp) t0 r = Some r1)
    (Hhash : Otp.hashOTP P c otp <> EmptyString)
    (Hwrong : Forall (fun g => Otp.hashOTP P c g.2 <> Otp.hashOTP P c otp) guesses)
    (Hwindow : t1 < t0 + Otp.OTP_EXPIRES_IN c * 1000) :
  Otp.verify_each P c phone guesses r1 = (map (fun _ => false) guesses, r1)
  /\ (Otp.verifyOTP P c phone otp t1 (Otp.verify_each P c phone guesses r1).2).1 = true.
Proof.
  destruct (storeOTP_Some _ _ _ _ _ _ Hstore) as [_ ->].
  rewrite verify_each_wrong by done. split; [done|]. simpl.
  rewrite verifyOTP_stored by (done || lia). by rewrite String.eqb_refl.
Qed.

(** X26 (witness): three wrong codes, then the right one. *)
Lemma verifyOTP_wrong_guesses_witness :
  Otp.verify_each tagging_platform demo_config "07123456789"
    [ (1000, "000000"%string); (2000, "111111"%string); (3000, "222222"%string) ]
    (<[Otp.otp_key "07123456789" :=
         (Otp.hashOTP tagging_platform demo_config "482913", 300000)]> ∅)
  = ([false; false; false],
     <[Otp.otp_key "07123456789" :=
         (Otp.hashOTP tagging_platform demo_config "482913", 300000)]> ∅)
  /\ (Otp.verifyOTP tagging_platform demo_config "07123456789" "482913" 4000
        (Otp.verify_each tagging_platform demo_config "07123456789"
           [ (1000, "000000"%string); (2000, "111111"%string); (3000, "222222"%string) ]
           (<[Otp.otp_key "07123456789" :=
                (Otp.hashOTP tagging_platform demo_config "482913", 300000)]> ∅)).2).1
     = true.
Proof.
  refine (verifyOTP_wrong_guesses tagging_platform demo_config "07123456789" "482913"
            0 4000 ∅ _
            [ (1000, "000000"%string); (2000, "111111"%string); (3000, "222222"%string) ]
            eq_refl _ _ _).
  - discriminate.
  - repeat constructor; discriminate.
  - vm_compute. reflexivity.
Defined.

(** X27. A second [storeOTP] for a phone replaces the first: from then on the
    first code is refused, at any time, and the second is accepted until its
    own expiry, counted from the second call. *)
Theorem storeOTP_replaces (P : Platform) (c : Otp.Config) (phone otp1 otp2 : string)
    (t0 t1 t2 : Time) (r r1 r2 : Otp.Redis)
    (Hfirst : Otp.storeOTP c phone (Otp.hashOTP P c otp1) t0 r = Some r1)
    (Hsecond : Otp.storeOTP c phone (Otp.hashOTP P c otp2) t1 r1 = Some r2)
    (Hdiff : Otp.hashOTP P c otp1 <> Otp.hashOTP P c otp2)
    (Hhash : Otp.hashOTP P c otp2 <> EmptyString)
    (Hwindow : t2 < t1 + Otp.OTP_EXPIRES_IN c * 1000) :
  (forall t, Otp.verifyOTP P c phone otp1 t r2 = (false, r2))
  /\ (Otp.verifyOTP P c phone otp2 t2 r2).1 = true.
Proof.
  destruct (storeOTP_Some _ _ _ _ _ _ Hfirst) as [_ ->].
  destruct (storeOTP_Some _ _ _ _ _ _ Hsecond) as [_ ->]. split.
  - intros t. unfold Otp.verifyOTP. rewrite get_insert_eq.
    destruct (_ <? t); [done|].
    destruct (Otp.hashOTP P c otp2) as [|a h] eqn:Hh; [done|].
    by destruct (String.eqb_spec (String a h) (Otp.hashOTP P c otp1)).
  - rewrite verifyOTP_stored by (done || lia). by rewrite String.eqb_refl.
Qed.

(** X27 (witness): a second code sent after four minutes is good in the
    eighth minute, the first is not. *)
Lemma storeOTP_replaces_witness :
  (forall t,
     Otp.verifyOTP tagging_platform demo_config "07123456789" "482913" t
       (<[Otp.otp_key "07123456789" :=
            (Otp.hashOTP tagging_platform demo_config "650021", 540000)]>
          (<[Otp.otp_key "07123456789" :=
               (Otp.hashOTP tagging_platform demo_config "482913", 300000)]> ∅))
     = (false,
        <[Otp.otp_key "07123456789" :=
            (Otp.hashOTP tagging_platform demo_config "650021", 540000)]>
          (<[Otp.otp_key "07123456789" :=
               (Otp.hashOTP tagging_platform demo_config "482913", 300000)]> ∅)))
  /\ (Otp.verifyOTP tagging_platform demo_config "07123456789" "650021" 480000
        (<[Otp.otp_key "07123456789" :=
             (Otp.hashOTP tagging_platform demo_config "650021", 540000)]>
           (<[Otp.otp_key "07123456789" :=
                (Otp.hashOTP tagging_platform demo_config "482913", 300000)]> ∅))).1
     = true.
Proof.
  refine (storeOTP_replaces tagging_platform demo_config "07123456789"
            "482913" "650021" 0 240000 480000 ∅ _ _ eq_refl eq_refl _ _ _).
  - discriminate.
  - discriminate.
  - vm_compute. reflexivity.
Defined.

Lemma otp_key_inj phone phone' : Otp.otp_key phone = Otp.otp_key phone' -> phone = phone'.
Proof. intros H. by injection H. Qed.

Lemma otp_key_not_email phone email : Otp.otp_key phone <> Otp.email_key email.
Proof. intros H. discriminate H. Qed.

Lemma get_other (key' : string) now (r r' : Otp.Redis) :
  r' !! key' = r !! key' -> Otp.get key' now r' = Otp.get key' now r.
Proof. intros H. unfold Otp.get, Time in *. by rewrite H. Qed.

(** X28. The keys of the module do not meet.  [storeOTP] and [verifyOTP] for
    one phone leave the OTP of every other phone and every e-mail
    verification token as they were; [storeEmailVerificationToken] and
    [verifyEmailVerificationToken] leave every OTP as it was. *)
Theorem otp_keys_do_not_meet (P : Platform) (c : Otp.Config)
    (phone code : string) (now t : Time) (r : Otp.Redis) :
  (forall r' : Otp.Redis, Otp.storeOTP c phone code now r = Some r'
              \/ r' = (Otp.verifyOTP P c phone code now r).2 ->
     (forall phone', phone' <> phone ->
        Otp.get (Otp.otp_key phone') t r' = Otp.get (Otp.otp_key phone') t r)
     /\ forall email, Otp.get (Otp.email_key email) t r' = Otp.get (Otp.email_key email) t r)
  /\ (forall email (r' : Otp.Redis), Otp.storeEmailVerificationToken email code now r = Some r'
                       \/ r' = (Otp.verifyEmailVerificationToken email code now r).2 ->
        forall phone', Otp.get (Otp.otp_key phone') t r' = Otp.get (Otp.otp_key phone') t r).
Proof.
  split.
  - intros r' Hr'.
    assert (forall key : string, key <> Otp.otp_key phone -> r' !! key = r !! key) as Hframe.
    { intros key Hkey. destruct Hr' as [Hstore| ->].
      - destruct (storeOTP_Some _ _ _ _ _ _ Hstore) as [_ ->].
        by rewrite lookup_insert_ne.
      - unfold Otp.verifyOTP, Otp.del. repeat case_match; simpl; try done.
        by rewrite lookup_delete_ne. }
    split.
    + intros phone' Hne. apply get_other, Hframe. intros Heq.
      by apply otp_key_inj in Heq.
    + intros email. apply get_other, Hframe. intros Heq.
      symmetry in Heq. by apply otp_key_not_email in Heq.
  - intros email r' Hr' phone'. apply get_other.
    pose proof (otp_key_not_email phone' email) as Hne.
    destruct Hr' as [Hstore| ->].
    + unfold Otp.storeEmailVerificationToken, Otp.setEx in Hstore. simpl in Hstore.
      injection Hstore as <-. by rewrite lookup_insert_ne.
    + unfold Otp.verifyEmailVerificationToken, Otp.del. repeat case_match; simpl; try done.
      by rewrite lookup_delete_ne.
Qed.

(** ** The phone number validator *)

(** X29. [validateUKPhoneNumber] does not see separators: a space of any
    kind, a dash or a parenthesis put anywhere into a number, also inside its
    country code, does not change the verdict. *)
Theorem validateUKPhoneNumber_ignores_separators (a b : Validation.CodeUnits) (c : Z)
    (Hc : Validation.is_separator c = true) :
  Validation.validateUKPhoneNumber (a ++ c :: b)
  = Validation.validateUKPhoneNumber (a ++ b).
Proof.
  unfold Validation.validateUKPhoneNumber, Validation.cleanPhone.
  rewrite !List.filter_app. simpl. by rewrite Hc.
Qed.

(** X29 (witness): a no-break space behind the country code. *)
Lemma validateUKPhoneNumber_ignores_separators_witness :
  Validation.validateUKPhoneNumber
    ([43; 52; 52] ++ 160 :: [55; 49; 50; 51; 52; 53; 54; 55; 56; 57])
  = Validation.validateUKPhoneNumber
      ([43; 52; 52] ++ [55; 49; 50; 51; 52; 53; 54; 55; 56; 57]).
Proof.
  exact (validateUKPhoneNumber_ignores_separators [43; 52; 52]
           [55; 49; 50; 51; 52; 53; 54; 55; 56; 57] 160 eq_refl).
Defined.

(** X30. The three ways to write one number get one verdict: whatever
    follows, the number written with +44, with 44 and with the national 0 in
    front is accepted in all three forms or in none. *)
Theorem validateUKPhoneNumber_forms_agree (rest : Validation.CodeUnits) :
  Validation.validateUKPhoneNumber (43 :: 52 :: 52 :: rest)
  = Validation.validateUKPhoneNumber (48 :: rest)
  /\ Validation.validateUKPhoneNumber (52 :: 52 :: rest)
     = Validation.validateUKPhoneNumber (48 :: rest).
Proof. split; reflexivity. Qed.
